(** * The update manager's policy dispatcher

    A shallow embedding of [update_manager/update_manager-inl.h]: the four
    function templates [EvaluatePolicy], [OnPolicyReadyToEvaluate],
    [PolicyRequest] and [AsyncPolicyRequest] of [UpdateManager].

    The templates are imperative code over objects owned elsewhere: the
    reference-counted [EvaluationContext], the two [Policy] objects, the
    [State], the delivery callback and the main loop.  The embedding keeps
    that shape.  Evaluation contexts live in a heap and are handled through
    their address, closures made by [base::Bind] are records of the bound
    values, and every call that leaves the dispatcher (a log line, a policy
    method, a callback, a scheduling request) is written to a trace. *)

From stdpp Require Import base option list gmap strings.

Set Default Proof Using "Type".

(** ** Plain data *)

(** [EvalStatus], the result of a policy method. *)
Inductive EvalStatus := kFailed | kSucceeded | kAskMeAgainLater.

#[global] Instance EvalStatus_eq_dec : EqDecision EvalStatus.
Proof. solve_decision. Defined.

(** Severities of the [LOG] lines the templates write. *)
Inductive Severity := INFO | WARNING | ERROR.

#[global] Instance Severity_eq_dec : EqDecision Severity.
Proof. solve_decision. Defined.

(** The address of an [EvaluationContext] object. *)
Abbreviation loc := nat (only parsing).

(** Which of the two policy objects a method is called on: [policy_] or
    [default_policy_]. *)
Inductive PolicyId := Primary | Default.

#[global] Instance PolicyId_eq_dec : EqDecision PolicyId.
Proof. solve_decision. Defined.

(** Why a call did not return. *)
Inductive Fault :=
| DcheckFailed      (* a DCHECK failed in a build that has them on *)
| InvalidPointer.   (* an EvaluationContext* that points to no object *)

(** The line feed of the C++ string literals. *)
Definition LF : string := String (Ascii.ascii_of_nat 10) EmptyString.

Section Dispatcher.

(** The template parameters and the types of the collaborators.  [R] is the
    result type, [Args] the parameter types the policy method declares
    ([Args...] in [EvaluatePolicy], [ExpectedArgs...] in the two request
    templates), [ActualArgs] the types the caller supplies, [Method] the
    pointers to a const member function of [Policy] that takes a context,
    the state, an error slot, a result slot and [Args...], and returns an
    [EvalStatus]. *)
Context {EC State R Args ActualArgs Method Callback Clock TimeDelta : Type}.

(** A [base::Closure] bound to [OnPolicyReadyToEvaluate<R, Args...>]: the
    values given to [base::Bind], at the parameter types of the bound
    function.  The context is held by reference ([scoped_refptr]). *)
Record Closure := mkClosure {
  cl_ec : loc;
  cl_callback : Callback;
  cl_method : Method;
  cl_args : Args
}.

(** What a policy method is given: the objects behind its pointer
    parameters as they are on entry, and the arguments. *)
Record PolicyCall := mkCall {
  pc_method : Method;
  pc_ec : loc;
  pc_ec_val : EC;
  pc_state : State;
  pc_error : string;
  pc_result : R;
  pc_args : Args
}.

(** What a policy method leaves behind: its status and the objects behind
    its pointer parameters as they are on return. *)
Record PolicyReturn := mkReturn {
  pr_status : EvalStatus;
  pr_ec : EC;
  pr_state : State;
  pr_error : string;
  pr_result : R
}.

(** The [Policy] interface, as far as the dispatcher uses it.  All policy
    methods are [const], so a policy object has no state of its own. *)
Record Policy := mkPolicy {
  invoke : Method -> EC -> State -> string -> R -> Args -> PolicyReturn;
  PolicyRequestName : Method -> string
}.

(** The [EvaluationContext] interface ([evaluation_context.h]), as far as
    the dispatcher uses it; the class itself is a parameter. *)
Class EvaluationContextOps := {
  (* EvaluationContext(clock, evaluation_timeout) *)
  EvaluationContext2 : Clock -> TimeDelta -> EC;
  (* EvaluationContext(clock, evaluation_timeout, expiration_timeout) *)
  EvaluationContext3 : Clock -> TimeDelta -> TimeDelta -> EC;
  is_expired : EC -> bool;
  ResetExpiration : EC -> EC;
  ResetEvaluation : EC -> EC;
  DumpContext : EC -> string;
  RunOnValueChangeOrTimeout : Closure -> EC -> bool * EC
}.

(** The members of [UpdateManager] the templates read, and three facts about
    the build and the instantiation they depend on.  The object behind
    [state_] is mutable and lives in the store below. *)
Record UpdateManager := mkUpdateManager {
  policy_ : Policy;
  default_policy_ : Policy;
  clock_ : Clock;
  evaluation_timeout_ : TimeDelta;
  expiration_timeout_ : TimeDelta;
  (* whether DCHECK is compiled in (a debug build) *)
  DCHECK_IS_ON : bool;
  (* the value of a default-initialised [R result;] *)
  R_init : R;
  (* the implicit conversion from ActualArgs... to ExpectedArgs... *)
  convert : ActualArgs -> Args
}.

(** Everything the dispatcher sends to its collaborators, in order. *)
Inductive Event :=
| EvLog (sev : Severity) (msg : string)
| EvNew (ec : loc) (evaluation : TimeDelta) (expiration : option TimeDelta)
| EvResetExpiration (ec : loc)
| EvResetEvaluation (ec : loc)
| EvPolicy (who : PolicyId) (call : PolicyCall) (ret : PolicyReturn)
| EvRunOnValueChangeOrTimeout (ec : loc) (c : Closure) (scheduled : bool)
| EvCallbackRun (cb : Callback) (status : EvalStatus) (result : R)
| EvRunFromMainLoop (c : Closure).

(** The mutable world: the heap of evaluation contexts, the [State] object
    behind [state_], and the closures posted to the main loop. *)
Record Store := mkStore {
  heap : gmap loc EC;
  state : State;
  main_loop : list Closure
}.

(** ** The monad of the templates: state, trace, and faults *)

Inductive Outcome (A : Type) :=
| Done (a : A) (s : Store) (tr : list Event)
| Stopped (f : Fault) (s : Store) (tr : list Event).
#[global] Arguments Done {A} a s tr.
#[global] Arguments Stopped {A} f s tr.

Definition M (A : Type) : Type := Store -> Outcome A.

#[global] Instance M_ret : MRet M := fun A a s => Done a s [].

#[global] Instance M_bind : MBind M := fun A B f m s =>
  match m s with
  | Done a s1 t1 =>
      match f a s1 with
      | Done b s2 t2 => Done b s2 (t1 ++ t2)
      | Stopped e s2 t2 => Stopped e s2 (t1 ++ t2)
      end
  | Stopped e s1 t1 => Stopped e s1 t1
  end.

Definition emit (e : Event) : M unit := fun s => Done () s [e].

Definition stop {A} (f : Fault) : M A := fun s => Stopped f s [].

Definition LOG (sev : Severity) (msg : string) : M unit := emit (EvLog sev msg).

Context `{ops : !EvaluationContextOps}.

(** *** Calls through a pointer to an [EvaluationContext] *)

(** [*ec]: the object behind the pointer. *)
Definition deref (ec : loc) : M EC := fun s =>
  match heap s !! ec with
  | Some e => Done e s []
  | None => Stopped InvalidPointer s []
  end.

(** [*ec = e]: what a non-const member function leaves behind the pointer. *)
Definition assign (ec : loc) (e : EC) : M unit := fun s =>
  Done () (mkStore (<[ec := e]> (heap s)) (state s) (main_loop s)) [].

(** [new EvaluationContext(...)]: the object gets an address no live
    object has.  The two functions are the two constructors the templates
    call. *)
Definition alloc (e : EC) (evaluation : TimeDelta) (expiration : option TimeDelta)
  : M loc := fun s =>
  let ec := fresh (dom (heap s)) in
  Done ec (mkStore (<[ec := e]> (heap s)) (state s) (main_loop s))
       [EvNew ec evaluation expiration].

Definition new_EvaluationContext2 (clock : Clock) (evaluation : TimeDelta)
  : M loc :=
  alloc (EvaluationContext2 clock evaluation) evaluation None.

Definition new_EvaluationContext3 (clock : Clock)
    (evaluation expiration : TimeDelta) : M loc :=
  alloc (EvaluationContext3 clock evaluation expiration) evaluation
        (Some expiration).

Definition ec_is_expired (ec : loc) : M bool :=
  e ← deref ec; mret (is_expired e).

Definition ec_DumpContext (ec : loc) : M string :=
  e ← deref ec; mret (DumpContext e).

Definition ec_ResetExpiration (ec : loc) : M unit :=
  e ← deref ec; assign ec (ResetExpiration e);; emit (EvResetExpiration ec).

Definition ec_ResetEvaluation (ec : loc) : M unit :=
  e ← deref ec; assign ec (ResetEvaluation e);; emit (EvResetEvaluation ec).

Definition ec_RunOnValueChangeOrTimeout (ec : loc) (c : Closure) : M bool :=
  e ← deref ec;
  let '(ok, e') := RunOnValueChangeOrTimeout c e in
  assign ec e';;
  emit (EvRunOnValueChangeOrTimeout ec c ok);;
  mret ok.

(** *** Calls of a policy method, of the callback, of the main loop *)

(** [(p->*policy_method)(ec, state_.get(), &error, result, args...)]: the
    method reads and writes the objects behind its four pointers. *)
Definition call_policy (who : PolicyId) (p : Policy) (policy_method : Method)
    (ec : loc) (error : string) (result : R) (args : Args)
  : M (EvalStatus * string * R) :=
  fun s =>
    match heap s !! ec with
    | Some e =>
        let ret := invoke p policy_method e (state s) error result args in
        Done (pr_status ret, pr_error ret, pr_result ret)
             (mkStore (<[ec := pr_ec ret]> (heap s)) (pr_state ret) (main_loop s))
             [EvPolicy who
                (mkCall policy_method ec e (state s) error result args) ret]
    | None => Stopped InvalidPointer s []
    end.

(** [callback.Run(status, result)]. *)
Definition callback_Run (callback : Callback) (status : EvalStatus) (result : R)
  : M unit := emit (EvCallbackRun callback status result).

(** Modelled from the spec: [RunFromMainLoop] of [event_loop.h], which is
    not among the sources; it posts a zero-argument action to run later on
    the same cooperative thread. *)
Definition RunFromMainLoop (c : Closure) : M unit := fun s =>
  Done () (mkStore (heap s) (state s) (main_loop s ++ [c])) [EvRunFromMainLoop c].

(** [DCHECK(cond)]: fatal when the condition is false in a build that has
    DCHECKs on, nothing otherwise. *)
Definition DCHECK (um : UpdateManager) (cond : bool) : M unit :=
  if DCHECK_IS_ON um && negb cond then stop DcheckFailed else mret ().

Definition LOG_IF (sev : Severity) (cond : bool) (msg : string) : M unit :=
  if cond then LOG sev msg else mret ().

(** ** The four templates *)

Variable um : UpdateManager.

Definition EvaluatePolicy (ec : loc) (policy_method : Method)
    (result : R) (args : Args) : M (EvalStatus * R) :=
  expired ← ec_is_expired ec;
  (if expired : bool then
     dump ← ec_DumpContext ec;
     LOG WARNING ("Request timed out, evaluation context: " +:+ dump);;
     ec_ResetExpiration ec
   else mret ());;
  ec_ResetEvaluation ec;;
  let policy_name := PolicyRequestName (policy_ um) policy_method in
  LOG INFO (policy_name +:+ ": START");;
  '(status, error, result) ←
    call_policy Primary (policy_ um) policy_method ec "" result args;
  '(status, result) ←
    (if decide (status = kFailed) then
       dump ← ec_DumpContext ec;
       LOG WARNING ("Evaluating policy failed: " +:+ error +:+ LF +:+
                    "Evaluation context: " +:+ dump);;
       let error := "" in
       '(status, error, result) ←
         call_policy Default (default_policy_ um) policy_method ec error
                     result args;
       if decide (status = kFailed) then
         LOG WARNING ("Evaluating default policy failed: " +:+ error);;
         mret (status, result)
       else if decide (status = kAskMeAgainLater) then
         LOG ERROR "Default policy would block; this is a bug, forcing failure.";;
         mret (kFailed, result)
       else mret (status, result)
     else mret (status, result));
  LOG INFO (policy_name +:+ ": END");;
  mret (status, result).

Definition OnPolicyReadyToEvaluate (ec : loc) (callback : Callback)
    (policy_method : Method) (args : Args) : M unit :=
  '(status, result) ← EvaluatePolicy ec policy_method (R_init um) args;
  if decide (status ≠ kAskMeAgainLater) then
    callback_Run callback status result
  else
    let reeval_callback := mkClosure ec callback policy_method args in
    ok ← ec_RunOnValueChangeOrTimeout ec reeval_callback;
    if ok : bool then mret ()
    else
      LOG ERROR ("Failed to schedule a reevaluation of policy " +:+
                 PolicyRequestName (policy_ um) policy_method +:+
                 "; this is a bug.");;
      callback_Run callback status result.

Definition PolicyRequest (policy_method : Method) (result : R)
    (args : ActualArgs) : M (EvalStatus * R) :=
  ec ← new_EvaluationContext2 (clock_ um) (evaluation_timeout_ um);
  '(ret, result) ← EvaluatePolicy ec policy_method result (convert um args);
  DCHECK um (bool_decide (kAskMeAgainLater ≠ ret));;
  LOG_IF WARNING (bool_decide (kAskMeAgainLater = ret))
         "Sync request used with an async policy; this is a bug";;
  mret (ret, result).

Definition AsyncPolicyRequest (callback : Callback) (policy_method : Method)
    (args : ActualArgs) : M unit :=
  ec ← new_EvaluationContext3 (clock_ um) (evaluation_timeout_ um)
                              (expiration_timeout_ um);
  let eval_callback :=
    mkClosure ec callback policy_method (convert um args) in
  RunFromMainLoop eval_callback.

(** [closure.Run()], as the main loop or the evaluation context does it
    when the time has come: the bound function on the bound values. *)
Definition Closure_Run (c : Closure) : M unit :=
  OnPolicyReadyToEvaluate (cl_ec c) (cl_callback c) (cl_method c) (cl_args c).

(** ** Reading a trace *)

(** The calls of [policy_method] on one of the two policy objects. *)
Definition policy_calls (who : PolicyId) (tr : list Event)
  : list (PolicyCall * PolicyReturn) :=
  omap (fun e => match e with
                 | EvPolicy w c r => if decide (w = who) then Some (c, r) else None
                 | _ => None
                 end) tr.

(** The runs of the delivery callback. *)
Definition deliveries (tr : list Event) : list (Callback * EvalStatus * R) :=
  omap (fun e => match e with
                 | EvCallbackRun cb st r => Some (cb, st, r)
                 | _ => None
                 end) tr.

(** The calls of [RunOnValueChangeOrTimeout], with what they returned. *)
Definition reschedule_requests (tr : list Event) : list (loc * Closure * bool) :=
  omap (fun e => match e with
                 | EvRunOnValueChangeOrTimeout ec c ok => Some (ec, c, ok)
                 | _ => None
                 end) tr.

(** The closures an evaluation context took for later (the call returned
    true). *)
Definition scheduled (tr : list Event) : list Closure :=
  omap (fun e => match e with
                 | EvRunOnValueChangeOrTimeout _ c true => Some c
                 | _ => None
                 end) tr.

(** The closures posted to the main loop. *)
Definition posted (tr : list Event) : list Closure :=
  omap (fun e => match e with
                 | EvRunFromMainLoop c => Some c
                 | _ => None
                 end) tr.

(** The evaluation contexts constructed. *)
Definition created (tr : list Event) : list (loc * TimeDelta * option TimeDelta) :=
  omap (fun e => match e with
                 | EvNew ec ev ex => Some (ec, ev, ex)
                 | _ => None
                 end) tr.

(** The log lines, in order. *)
Definition logged (tr : list Event) : list (Severity * string) :=
  omap (fun e => match e with
                 | EvLog sev msg => Some (sev, msg)
                 | _ => None
                 end) tr.

(** ** The life of an asynchronous request

    A request is either waiting in a closure that something will run, or
    over.  A pass runs the closure; what the pass did decides where the
    request is afterwards.  Between two passes the rest of the system may
    change the store in any way. *)
Inductive Request := Pending (c : Closure) | Resolved.

Definition after_pass (tr : list Event) : Request :=
  match scheduled tr with
  | c :: _ => Pending c
  | [] => Resolved
  end.

(** [passes n q s tr q']: from request [q] in store [s], [n] passes are
    run, one after the other; they write [tr] and leave the request as [q'].
    A closure that is never run is a request given up: the rule
    [passes_none] ends the sequence wherever it is. *)
Inductive passes : nat -> Request -> Store -> list Event -> Request -> Prop :=
| passes_none q s :
    passes 0 q s [] q
| passes_fire n c s s1 tr s2 tr' q :
    Closure_Run c s = Done () s1 tr ->
    passes n (after_pass tr) s2 tr' q ->
    passes (S n) (Pending c) s (tr ++ tr') q.

End Dispatcher.

(** The trace of a call, whether it returned or not. *)
Definition trace_of `(o : Outcome (EC:=EC) (State:=State) (R:=R) (Args:=Args)
                           (Method:=Method) (Callback:=Callback)
                           (TimeDelta:=TimeDelta) A) : list Event :=
  match o with
  | Done _ _ tr => tr
  | Stopped _ _ tr => tr
  end.

(** ** A small instance

    Concrete collaborators to run the templates on.  A policy method is
    named by the statuses the two policies answer with, or by the number of
    policy calls after which the primary policy has an answer; the primary
    policy reports the argument as its result and appends to the error slot,
    the default policy reports 7.  Each call of a policy method counts up
    the state.  A context knows whether it is expired and whether it has
    something to wait for. *)
Module Toy.

Record Ctx := mkCtx {
  expired : bool;
  can_wait : bool;
  observed : nat
}.

Inductive Method :=
| Answer (primary default : EvalStatus)
| Ready_after (calls : nat).

Definition primary_answer (m : Method) (st : nat) : EvalStatus :=
  match m with
  | Answer p _ => p
  | Ready_after n => if st <? n then kAskMeAgainLater else kSucceeded
  end.

Definition default_answer (m : Method) : EvalStatus :=
  match m with
  | Answer _ d => d
  | Ready_after _ => kSucceeded
  end.

Definition closure : Type := Closure (Args:=nat) (Method:=Method) (Callback:=nat).

(** A context that schedules a closure when it has something to wait for. *)
Definition ops : EvaluationContextOps (EC:=Ctx) (Args:=nat) (Method:=Method)
                   (Callback:=nat) (Clock:=unit) (TimeDelta:=nat) := {|
  EvaluationContext2 _ _ := mkCtx false false 0;
  EvaluationContext3 _ _ _ := mkCtx false true 0;
  is_expired := expired;
  ResetExpiration e := mkCtx false (can_wait e) (observed e);
  ResetEvaluation e := mkCtx (expired e) (can_wait e) 0;
  DumpContext e := if expired e then "expired" else "fresh";
  RunOnValueChangeOrTimeout _ e := (can_wait e, e)
|}.

(** A context that always finds something to wait for. *)
Definition eager_ops : EvaluationContextOps (EC:=Ctx) (Args:=nat)
                         (Method:=Method) (Callback:=nat) (Clock:=unit)
                         (TimeDelta:=nat) := {|
  EvaluationContext2 _ _ := mkCtx false true 0;
  EvaluationContext3 _ _ _ := mkCtx false true 0;
  is_expired := expired;
  ResetExpiration e := mkCtx false (can_wait e) (observed e);
  ResetEvaluation e := mkCtx (expired e) (can_wait e) 0;
  DumpContext e := if expired e then "expired" else "fresh";
  RunOnValueChangeOrTimeout _ e := (true, e)
|}.

Definition primary : Policy (EC:=Ctx) (State:=nat) (R:=nat) (Args:=nat)
                       (Method:=Method) :=
  mkPolicy
    (fun m e st error _ arg =>
       mkReturn (primary_answer m st)
                (mkCtx (expired e) (can_wait e) (S (observed e)))
                (S st) (error +:+ "primary gave up") arg)
    (fun _ => "UpdateCheckAllowed").

Definition default : Policy (EC:=Ctx) (State:=nat) (R:=nat) (Args:=nat)
                       (Method:=Method) :=
  mkPolicy
    (fun m e st error _ _ =>
       mkReturn (default_answer m) e (S st) (error +:+ "default gave up") 7)
    (fun _ => "UpdateCheckAllowed").

(** The manager in a build with DCHECKs ([debug = true]) or without. *)
Definition um (debug : bool) : UpdateManager (ActualArgs:=bool) :=
  mkUpdateManager primary default () 5 9 debug 0 Nat.b2n.

Definition store : Type :=
  Store (EC:=Ctx) (State:=nat) (Args:=nat) (Method:=Method) (Callback:=nat).

(** Four policy methods: one the primary policy answers; one it fails and the
    default policy answers; one it fails and the default policy answers with
    [kAskMeAgainLater]; one it asks to be called again for. *)
Definition decided : Method := Answer kSucceeded kSucceeded.
Definition failing : Method := Answer kFailed kSucceeded.
Definition blocked : Method := Answer kFailed kAskMeAgainLater.
Definition waiting : Method := Answer kAskMeAgainLater kSucceeded.

(** The closure of an asynchronous request for [waiting] on context 4. *)
Definition request : closure := mkClosure 4 1 waiting 8.

(** No context yet. *)
Definition s_empty : store := mkStore ∅ 0 [].

(** One live context at address 4: not expired, nothing to wait for. *)
Definition s_idle : store := mkStore {[ 4 := mkCtx false false 3 ]} 0 [].

(** One live context at address 4: expired, something to wait for. *)
Definition s_expired : store := mkStore {[ 4 := mkCtx true true 3 ]} 0 [].

(** Two live contexts, at addresses 4 and 6, and one closure in the main
    loop. *)
Definition s_pair : store :=
  mkStore {[ 4 := mkCtx false false 3; 6 := mkCtx true true 1 ]} 0 [request].

(** The closure of an asynchronous request on context 4 for a method the
    primary policy answers at its second call. *)
Definition patient : closure := mkClosure 4 1 (Ready_after 1) 8.

End Toy.

(** ** What the templates do *)

Section Properties.

Context {EC State R Args ActualArgs Method Callback Clock TimeDelta : Type}.
Context `{ops : !EvaluationContextOps (EC:=EC) (Args:=Args) (Method:=Method)
                   (Callback:=Callback) (Clock:=Clock) (TimeDelta:=TimeDelta)}.
Variable um : UpdateManager (EC:=EC) (State:=State) (R:=R) (Args:=Args)
                (ActualArgs:=ActualArgs) (Method:=Method) (Clock:=Clock)
                (TimeDelta:=TimeDelta).

Implicit Types (s : Store (EC:=EC) (State:=State) (Args:=Args) (Method:=Method)
                      (Callback:=Callback)).
Implicit Types (tr : list (Event (EC:=EC) (State:=State) (R:=R) (Args:=Args)
                             (Method:=Method) (Callback:=Callback)
                             (TimeDelta:=TimeDelta))).
Implicit Types (c : Closure (Args:=Args) (Method:=Method) (Callback:=Callback)).

(** *** Running the monad by hand *)

Ltac unfold_calls :=
  unfold ec_is_expired, ec_DumpContext, ec_ResetExpiration, ec_ResetEvaluation,
    ec_RunOnValueChangeOrTimeout, call_policy, callback_Run, RunFromMainLoop,
    new_EvaluationContext2, new_EvaluationContext3, alloc, DCHECK, LOG_IF, LOG,
    emit, stop, deref, assign, mbind, mret, M_bind, M_ret.

Ltac step := simpl; rewrite ?lookup_insert_eq, ?insert_insert_eq.

(** One pass on a live context, written out: the context as the primary
    policy finds it, what the two policies answer, and the trace. *)
Lemma EvaluatePolicy_run ec m result args s e :
  heap s !! ec = Some e ->
  let e1 := ResetEvaluation (if is_expired e then ResetExpiration e else e) in
  let name := PolicyRequestName (policy_ um) m in
  let p := invoke (policy_ um) m e1 (state s) "" result args in
  let d := invoke (default_policy_ um) m (pr_ec p) (pr_state p) ""
                  (pr_result p) args in
  let prologue :=
    (if is_expired e
     then [EvLog WARNING ("Request timed out, evaluation context: " +:+
                          DumpContext e);
           EvResetExpiration ec]
     else []) ++
    [EvResetEvaluation ec; EvLog INFO (name +:+ ": START");
     EvPolicy Primary (mkCall m ec e1 (state s) "" result args) p] in
  EvaluatePolicy um ec m result args s =
    if decide (pr_status p = kFailed) then
      Done (if decide (pr_status d = kSucceeded) then kSucceeded else kFailed,
            pr_result d)
           (mkStore (<[ec := pr_ec d]> (heap s)) (pr_state d) (main_loop s))
           (prologue ++
            [EvLog WARNING ("Evaluating policy failed: " +:+ pr_error p +:+ LF +:+
                            "Evaluation context: " +:+ DumpContext (pr_ec p));
             EvPolicy Default
               (mkCall m ec (pr_ec p) (pr_state p) "" (pr_result p) args) d] ++
            match pr_status d with
            | kFailed =>
                [EvLog WARNING ("Evaluating default policy failed: " +:+ pr_error d)]
            | kAskMeAgainLater =>
                [EvLog ERROR
                   "Default policy would block; this is a bug, forcing failure."]
            | kSucceeded => []
            end ++
            [EvLog INFO (name +:+ ": END")])
    else
      Done (pr_status p, pr_result p)
           (mkStore (<[ec := pr_ec p]> (heap s)) (pr_state p) (main_loop s))
           (prologue ++ [EvLog INFO (name +:+ ": END")]).
Proof.
  intros Hl e1 name p d prologue. subst prologue.
  unfold EvaluatePolicy. unfold_calls. rewrite Hl.
  destruct (is_expired e) eqn:Hexp; subst e1; step; rewrite ?Hl; repeat step.
  all: fold name; fold p.
  all: destruct (decide (pr_status p = kFailed)) as [Hp|Hp]; repeat step;
    try reflexivity.
  all: fold d; destruct (pr_status d) eqn:Hd; repeat step; reflexivity.
Qed.

(** A pass on a pointer to nothing stops at the first dereference. *)
Lemma EvaluatePolicy_dangling ec m result args s :
  heap s !! ec = None ->
  EvaluatePolicy um ec m result args s = Stopped InvalidPointer s [].
Proof.
  intros Hl. unfold EvaluatePolicy. unfold_calls. rewrite Hl. reflexivity.
Qed.

(** The asynchronous step, given what its evaluation pass returned. *)
Lemma OnPolicyReadyToEvaluate_run ec cb m args s status r s1 t1 e1 :
  EvaluatePolicy um ec m (R_init um) args s = Done (status, r) s1 t1 ->
  heap s1 !! ec = Some e1 ->
  let c := mkClosure ec cb m args in
  let ok := (RunOnValueChangeOrTimeout c e1).1 in
  OnPolicyReadyToEvaluate um ec cb m args s =
    if decide (status ≠ kAskMeAgainLater) then
      Done () s1 (t1 ++ [EvCallbackRun cb status r])
    else
      Done ()
           (mkStore (<[ec := (RunOnValueChangeOrTimeout c e1).2]> (heap s1))
                    (state s1) (main_loop s1))
           (t1 ++ EvRunOnValueChangeOrTimeout ec c ok ::
              if ok then []
              else [EvLog ERROR ("Failed to schedule a reevaluation of policy " +:+
                                 PolicyRequestName (policy_ um) m +:+
                                 "; this is a bug.");
                    EvCallbackRun cb status r]).
Proof.
  intros Hev Hl c ok. subst ok.
  unfold OnPolicyReadyToEvaluate. unfold_calls. rewrite Hev. simpl.
  destruct (decide (status ≠ kAskMeAgainLater)) as [Hs|Hs]; simpl; [reflexivity|].
  rewrite Hl. fold c. destruct (RunOnValueChangeOrTimeout c e1) as [[] e2];
    repeat step; reflexivity.
Qed.

Lemma OnPolicyReadyToEvaluate_dangling ec cb m args s :
  heap s !! ec = None ->
  OnPolicyReadyToEvaluate um ec cb m args s = Stopped InvalidPointer s [].
Proof.
  intros Hl. unfold OnPolicyReadyToEvaluate. unfold_calls.
  rewrite (EvaluatePolicy_dangling _ _ _ _ _ Hl). reflexivity.
Qed.

(** *** Reading the trace of a sequence *)

Lemma policy_calls_app who tr1 tr2 :
  policy_calls who (tr1 ++ tr2) = policy_calls who tr1 ++ policy_calls who tr2.
Proof. apply omap_app. Qed.

Lemma deliveries_app tr1 tr2 :
  deliveries (tr1 ++ tr2) = deliveries tr1 ++ deliveries tr2.
Proof. apply omap_app. Qed.

Lemma reschedule_requests_app tr1 tr2 :
  reschedule_requests (tr1 ++ tr2) =
  reschedule_requests tr1 ++ reschedule_requests tr2.
Proof. apply omap_app. Qed.

Lemma scheduled_app tr1 tr2 :
  scheduled (tr1 ++ tr2) = scheduled tr1 ++ scheduled tr2.
Proof. apply omap_app. Qed.

Lemma posted_app tr1 tr2 : posted (tr1 ++ tr2) = posted tr1 ++ posted tr2.
Proof. apply omap_app. Qed.

Lemma created_app tr1 tr2 : created (tr1 ++ tr2) = created tr1 ++ created tr2.
Proof. apply omap_app. Qed.

Lemma logged_app tr1 tr2 : logged (tr1 ++ tr2) = logged tr1 ++ logged tr2.
Proof. apply omap_app. Qed.


(** *** One evaluation pass *)


(** A pass on a live context returns.  It calls the primary policy once, with
    the method, the context and the arguments it was given; it runs no
    callback, asks for no rescheduling, posts and constructs nothing; the
    context is live afterwards, and the main loop is as before. *)
Lemma EvaluatePolicy_pass ec m result args s :
  is_Some (heap s !! ec) ->
  ∃ status r s' tr pc pr,
    EvaluatePolicy um ec m result args s = Done (status, r) s' tr ∧
    is_Some (heap s' !! ec) ∧ main_loop s' = main_loop s ∧
    policy_calls Primary tr = [(pc, pr)] ∧
    pc_method pc = m ∧ pc_ec pc = ec ∧ pc_args pc = args ∧
    pc_error pc = "" ∧ pc_result pc = result ∧
    deliveries tr = [] ∧ reschedule_requests tr = [] ∧ scheduled tr = [] ∧
    posted tr = [] ∧ created tr = [] ∧
    (pr_status pr ≠ kFailed ->
       status = pr_status pr ∧ r = pr_result pr ∧ policy_calls Default tr = []) ∧
    (pr_status pr = kFailed ->
       ∃ dc dr, policy_calls Default tr = [(dc, dr)] ∧
         status = (if decide (pr_status dr = kSucceeded)
                   then kSucceeded else kFailed) ∧
         r = pr_result dr ∧
         pc_method dc = m ∧ pc_ec dc = ec ∧ pc_args dc = args).
Proof.
  intros [e Hl]. rewrite (EvaluatePolicy_run _ _ _ _ _ _ Hl).
  set (e1 := ResetEvaluation _).
  set (p := invoke (policy_ um) m e1 (state s) "" result args).
  set (d := invoke (default_policy_ um) m _ _ _ _ _).
  destruct (decide (pr_status p = kFailed)) as [Hp|Hp].
  - eexists _, _, _, _, (mkCall m ec e1 (state s) "" result args), p.
    split; [reflexivity|].
    simpl. rewrite lookup_insert_eq.
    destruct (is_expired e), (pr_status d) eqn:Hd; simpl;
      split_and!; try done; try (by eauto);
      intros _; eexists _, d; rewrite Hd; done.
  - eexists _, _, _, _, (mkCall m ec e1 (state s) "" result args), p.
    split; [reflexivity|].
    simpl. rewrite lookup_insert_eq.
    destruct (is_expired e); simpl; split_and!; try done; by eauto.
Qed.

(** With a status other than [kAskMeAgainLater] the pass cannot have ended
    otherwise than by what the policies said. *)
Lemma EvaluatePolicy_asks ec m result args s status r s' tr pc pr :
  EvaluatePolicy um ec m result args s = Done (status, r) s' tr ->
  policy_calls Primary tr = [(pc, pr)] ->
  status = kAskMeAgainLater <-> pr_status pr = kAskMeAgainLater.
Proof.
  intros Hev Hpc. destruct (heap s !! ec) as [e|] eqn:Hl.
  - destruct (EvaluatePolicy_pass ec m result args s) as
      (status' & r' & s1 & tr' & pc' & pr' & Hev' & _ & _ & Hpc' & _ & _ & _ & _
       & _ & _ & _ & _ & _ & _ & Hok & Hfail); [by eauto|].
    rewrite Hev in Hev'. simplify_eq. rewrite Hpc in Hpc'. simplify_eq.
    destruct (decide (pr_status pr' = kFailed)) as [Hp|Hp].
    + destruct (Hfail Hp) as (dc & dr & _ & -> & _). rewrite Hp.
      case_decide; split; congruence.
    + destruct (Hok Hp) as (-> & _). done.
  - rewrite (EvaluatePolicy_dangling _ _ _ _ _ Hl) in Hev. done.
Qed.

(** The same facts, read off a pass that is known to have returned. *)
Lemma EvaluatePolicy_inv ec m result args s status r s' tr :
  EvaluatePolicy um ec m result args s = Done (status, r) s' tr ->
  ∃ pc pr,
    is_Some (heap s !! ec) ∧ is_Some (heap s' !! ec) ∧
    policy_calls Primary tr = [(pc, pr)] ∧
    pc_method pc = m ∧ pc_ec pc = ec ∧ pc_args pc = args ∧
    deliveries tr = [] ∧ reschedule_requests tr = [] ∧ scheduled tr = [] ∧
    posted tr = [] ∧ created tr = [] ∧
    (pr_status pr ≠ kFailed ->
       status = pr_status pr ∧ r = pr_result pr ∧ policy_calls Default tr = []) ∧
    (pr_status pr = kFailed ->
       ∃ dc dr, policy_calls Default tr = [(dc, dr)] ∧
         status = (if decide (pr_status dr = kSucceeded)
                   then kSucceeded else kFailed) ∧
         r = pr_result dr ∧
         pc_method dc = m ∧ pc_ec dc = ec ∧ pc_args dc = args).
Proof.
  intros Hev. destruct (heap s !! ec) as [e|] eqn:Hl.
  - destruct (EvaluatePolicy_pass ec m result args s) as
      (status' & r' & s1 & tr' & pc & pr & Hev' & Hlive & _ & Hpc & Hm & Hec
       & Hargs & _ & _ & Hd & Hrr & Hsc & Hpo & Hcr & Hok & Hfail);
      [by eauto|].
    rewrite Hev in Hev'. simplify_eq. exists pc, pr. split_and!; by eauto.
  - rewrite (EvaluatePolicy_dangling _ _ _ _ _ Hl) in Hev. done.
Qed.

(** A default policy that answers [kAskMeAgainLater] makes the pass fail. *)
Lemma EvaluatePolicy_blocked ec m result args s status r s' tr pc pr dc dr :
  EvaluatePolicy um ec m result args s = Done (status, r) s' tr ->
  policy_calls Primary tr = [(pc, pr)] -> pr_status pr = kFailed ->
  policy_calls Default tr = [(dc, dr)] -> pr_status dr = kAskMeAgainLater ->
  status = kFailed ∧ r = pr_result dr.
Proof.
  intros Hev Hpc Hp Hdc Hd.
  destruct (EvaluatePolicy_inv _ _ _ _ _ _ _ _ _ Hev) as
    (pc' & pr' & _ & _ & Hpc' & _ & _ & _ & _ & _ & _ & _ & _ & _ & Hfail).
  rewrite Hpc in Hpc'. simplify_eq.
  destruct (Hfail Hp) as (dc' & dr' & Hdc' & -> & -> & _).
  rewrite Hdc in Hdc'. simplify_eq. by rewrite Hd.
Qed.

(** *** One asynchronous step *)

(** A step on a live context returns, and ends in one of three ways: the
    pass gave a final status, which is delivered; the pass asked to be run
    again and the context took the closure; or the context refused it, and
    the status is delivered as it is. *)
Lemma OnPolicyReadyToEvaluate_pass ec cb m args s :
  is_Some (heap s !! ec) ->
  ∃ status r s1 t1 s' tr,
    EvaluatePolicy um ec m (R_init um) args s = Done (status, r) s1 t1 ∧
    OnPolicyReadyToEvaluate um ec cb m args s = Done () s' tr ∧
    is_Some (heap s' !! ec) ∧ main_loop s' = main_loop s ∧
    let c := mkClosure ec cb m args in
    ((status ≠ kAskMeAgainLater ∧ tr = t1 ++ [EvCallbackRun cb status r]) ∨
     (status = kAskMeAgainLater ∧
      tr = t1 ++ [EvRunOnValueChangeOrTimeout ec c true]) ∨
     (status = kAskMeAgainLater ∧
      tr = t1 ++ [EvRunOnValueChangeOrTimeout ec c false;
                  EvLog ERROR ("Failed to schedule a reevaluation of policy " +:+
                               PolicyRequestName (policy_ um) m +:+
                               "; this is a bug.");
                  EvCallbackRun cb status r])).
Proof.
  intros Hlive.
  destruct (EvaluatePolicy_pass ec m (R_init um) args s Hlive) as
    (status & r & s1 & t1 & pc & pr & Hev & [e1 Hl1] & Hml & _).
  rewrite (OnPolicyReadyToEvaluate_run _ cb _ _ _ _ _ _ _ _ Hev Hl1).
  destruct (decide (status ≠ kAskMeAgainLater)) as [Hs|Hs].
  - eexists status, r, s1, t1, _, _. split; [exact Hev|].
    split; [reflexivity|]. split; [by eauto|]. split; [done|]. by left.
  - apply dec_stable in Hs.
    eexists status, r, s1, t1, _, _. split; [exact Hev|].
    split; [reflexivity|]. simpl.
    rewrite lookup_insert_eq. split; [by eauto|]. split; [done|]. right.
    destruct (RunOnValueChangeOrTimeout _ e1) as [[] e2]; simpl; by eauto.
Qed.

(** What a closure did when it was run and returned: one call of the
    primary policy on the bound method, context and arguments, and then
    either one delivery to the bound callback and nothing scheduled, or
    nothing delivered and the same closure scheduled. *)
Lemma Closure_Run_inv c s s1 tr :
  Closure_Run um c s = Done () s1 tr ->
  (∀ who pc pr, (pc, pr) ∈ policy_calls who tr ->
     pc_method pc = cl_method c ∧ pc_ec pc = cl_ec c ∧ pc_args pc = cl_args c) ∧
  length (policy_calls Primary tr) = 1 ∧
  posted tr = [] ∧ created tr = [] ∧
  ((∃ status r,
      deliveries tr = [(cl_callback c, status, r)] ∧ scheduled tr = [] ∧
      (status ≠ kAskMeAgainLater ∧ reschedule_requests tr = [] ∨
       status = kAskMeAgainLater ∧ reschedule_requests tr = [(cl_ec c, c, false)]))
   ∨ (deliveries tr = [] ∧ scheduled tr = [c] ∧
      reschedule_requests tr = [(cl_ec c, c, true)])).
Proof.
  destruct c as [ec cb m args]. unfold Closure_Run. simpl. intros Hrun.
  destruct (heap s !! ec) as [e|] eqn:Hl;
    [|by rewrite (OnPolicyReadyToEvaluate_dangling _ _ _ _ _ Hl) in Hrun].
  destruct (OnPolicyReadyToEvaluate_pass ec cb m args s) as
    (status & r & s2 & t1 & s' & tr' & Hev & Hrun' & _ & _ & Hcases);
    [by eauto|].
  rewrite Hrun in Hrun'. simplify_eq.
  destruct (EvaluatePolicy_inv _ _ _ _ _ _ _ _ _ Hev) as
    (pc & pr & _ & _ & Hpc & Hm & Hec & Hargs & Hdel & Hrr & Hsc & Hpo & Hcr
     & Hok & Hfail).
  assert (Hcalls : ∀ who pc' pr', (pc', pr') ∈ policy_calls who t1 ->
            pc_method pc' = m ∧ pc_ec pc' = ec ∧ pc_args pc' = args).
  { intros [] pc' pr' Hin.
    - rewrite Hpc in Hin. apply list_elem_of_singleton in Hin. by simplify_eq.
    - destruct (decide (pr_status pr = kFailed)) as [Hp|Hp].
      + destruct (Hfail Hp) as (dc & dr & Hdc & _ & _ & ? & ? & ?).
        rewrite Hdc in Hin. apply list_elem_of_singleton in Hin. by simplify_eq.
      + destruct (Hok Hp) as (_ & _ & Hdc). rewrite Hdc in Hin.
        by apply elem_of_nil in Hin. }
  destruct Hcases as [[Hs ->]|[[Hs ->]|[Hs ->]]];
    rewrite !policy_calls_app, deliveries_app, scheduled_app,
      reschedule_requests_app, posted_app, created_app,
      Hpc, Hdel, Hrr, Hsc, Hpo, Hcr; simpl.
  - split_and!; try done.
    + intros who pc' pr'. rewrite policy_calls_app. simpl. rewrite app_nil_r.
      apply Hcalls.
    + left. exists status, r. by eauto.
  - split_and!; try done.
    + intros who pc' pr'. rewrite policy_calls_app. simpl. rewrite app_nil_r.
      apply Hcalls.
    + by right.
  - split_and!; try done.
    + intros who pc' pr'. rewrite policy_calls_app. simpl. rewrite app_nil_r.
      apply Hcalls.
    + left. exists status, r. by eauto.
Qed.

(** Where a request is after a pass that returned. *)
Lemma after_pass_Closure_Run c s s1 tr :
  Closure_Run um c s = Done () s1 tr ->
  (after_pass tr = Resolved ∧ ∃ status r, deliveries tr = [(cl_callback c, status, r)])
  ∨ (after_pass tr = Pending c ∧ deliveries tr = []).
Proof.
  intros Hrun.
  destruct (Closure_Run_inv _ _ _ _ Hrun) as
    (_ & _ & _ & _ & [(status & r & Hdel & Hsc & _)|(Hdel & Hsc & _)]);
    unfold after_pass; rewrite Hsc; by eauto.
Qed.

(** A request that is over stays over: nothing is left to run. *)
Lemma passes_Resolved n s tr q :
  passes um n Resolved s tr q -> n = 0 ∧ tr = [] ∧ q = Resolved.
Proof. inversion 1; done. Qed.

(** Over any number of passes the request stays with one closure, every
    policy call is on the values bound in it, and the callback has run once
    if the request is over and not at all if it is still pending. *)
Lemma passes_inv n c s tr q :
  passes um n (Pending c) s tr q ->
  (∀ who pc pr, (pc, pr) ∈ policy_calls who tr ->
     pc_method pc = cl_method c ∧ pc_ec pc = cl_ec c ∧ pc_args pc = cl_args c) ∧
  (∀ l c' ok, (l, c', ok) ∈ reschedule_requests tr -> l = cl_ec c ∧ c' = c) ∧
  length (policy_calls Primary tr) = n ∧
  posted tr = [] ∧ created tr = [] ∧
  ((q = Resolved ∧ ∃ status r, deliveries tr = [(cl_callback c, status, r)])
   ∨ (q = Pending c ∧ deliveries tr = [])).
Proof.
  revert c s tr q. induction n as [|n IH]; intros c s tr q Hp.
  - inversion Hp; subst. split_and!; try done;
      try (intros ???; simpl; by rewrite elem_of_nil). by right.
  - inversion Hp as [|n' c' s' s1 t1 s2 t2 q' Hrun Hrest]; subst.
    destruct (Closure_Run_inv _ _ _ _ Hrun) as (Hcalls & Hlen & Hpo & Hcr & Hend).
    destruct (after_pass_Closure_Run _ _ _ _ Hrun) as
      [[Hq (status & r & Hdel)]|[Hq Hdel]]; rewrite Hq in Hrest.
    + apply passes_Resolved in Hrest as (-> & -> & ->).
      rewrite app_nil_r. split_and!; try done.
      * intros l c' ok Hin.
        destruct Hend as [(? & ? & _ & _ & [[_ Hrr]|[_ Hrr]])|(_ & _ & Hrr)];
          rewrite Hrr in Hin;
          [by apply elem_of_nil in Hin
          |apply list_elem_of_singleton in Hin; by simplify_eq ..].
      * left. by eauto.
    + destruct (IH _ _ _ _ Hrest) as (Hcalls' & Hrr' & Hlen' & Hpo' & Hcr' & Hend').
      rewrite !policy_calls_app, posted_app, created_app, deliveries_app,
        length_app, Hlen, Hlen', Hpo, Hpo', Hcr, Hcr', Hdel.
      split_and!; try done.
      * intros who pc pr. rewrite policy_calls_app, elem_of_app.
        intros [Hin|Hin]; by eauto.
      * intros l c' ok. rewrite reschedule_requests_app, elem_of_app.
        intros [Hin|Hin]; [|by eauto].
        destruct Hend as [(? & ? & _ & _ & [[_ Hrr]|[_ Hrr]])|(_ & _ & Hrr)];
          rewrite Hrr in Hin;
          [by apply elem_of_nil in Hin
          |apply list_elem_of_singleton in Hin; by simplify_eq ..].
Qed.

(** *** The two entry points *)

Lemma fresh_not_live s : heap s !! fresh (dom (heap s)) = None.
Proof. apply not_elem_of_dom, is_fresh. Qed.

(** A synchronous request is one pass on a new context, then the check of
    the status. *)
Lemma PolicyRequest_run m result args s :
  let ec := fresh (dom (heap s)) in
  let s0 := mkStore (<[ec := EvaluationContext2 (clock_ um) (evaluation_timeout_ um)]>
                       (heap s)) (state s) (main_loop s) in
  ∃ status r s1 t1,
    EvaluatePolicy um ec m result (convert um args) s0 = Done (status, r) s1 t1 ∧
    PolicyRequest um m result args s =
      if DCHECK_IS_ON um && bool_decide (status = kAskMeAgainLater)
      then Stopped DcheckFailed s1 (EvNew ec (evaluation_timeout_ um) None :: t1)
      else Done (status, r) s1
                (EvNew ec (evaluation_timeout_ um) None :: t1 ++
                 if bool_decide (status = kAskMeAgainLater)
                 then [EvLog WARNING
                         "Sync request used with an async policy; this is a bug"]
                 else []).
Proof.
  intros ec s0.
  destruct (EvaluatePolicy_pass ec m result (convert um args) s0) as
    (status & r & s1 & t1 & pc & pr & Hev & _).
  { subst s0. simpl. rewrite lookup_insert_eq. by eauto. }
  exists status, r, s1, t1. split; [exact Hev|].
  unfold PolicyRequest. unfold_calls. fold ec. fold s0. rewrite Hev.
  destruct (DCHECK_IS_ON um), status; simpl; rewrite ?app_nil_r; reflexivity.
Qed.

(** An asynchronous request constructs a context and posts a closure. *)
Lemma AsyncPolicyRequest_run cb m args s :
  let ec := fresh (dom (heap s)) in
  let c := mkClosure ec cb m (convert um args) in
  AsyncPolicyRequest um cb m args s =
    Done ()
         (mkStore (<[ec := EvaluationContext3 (clock_ um) (evaluation_timeout_ um)
                                              (expiration_timeout_ um)]> (heap s))
                  (state s) (main_loop s ++ [c]))
         [EvNew ec (evaluation_timeout_ um) (Some (expiration_timeout_ um));
          EvRunFromMainLoop c].
Proof. reflexivity. Qed.

(** *** The fallback to the default policy *)


(** C2.  In every evaluation pass in which the primary policy returns
    [kFailed] and the default policy then returns [kAskMeAgainLater], the pass
    returns [kFailed], and the error line about the blocking default policy
    is logged.  That status is what leaves the dispatcher: an asynchronous
    step delivers [kFailed] to the callback and asks for no rescheduling, and
    a synchronous request returns [kFailed] to its caller. *)
Theorem EvaluatePolicy_default_would_block :
  (∀ ec m result args s,
     is_Some (heap s !! ec) ->
     ∃ status r s' tr,
       EvaluatePolicy um ec m result args s = Done (status, r) s' tr ∧
       ∀ pc pr dc dr,
         policy_calls Primary tr = [(pc, pr)] -> pr_status pr = kFailed ->
         policy_calls Default tr = [(dc, dr)] ->
         pr_status dr = kAskMeAgainLater ->
         status = kFailed ∧ status ≠ kAskMeAgainLater ∧
         (ERROR, "Default policy would block; this is a bug, forcing failure.")
           ∈ logged tr) ∧
  (∀ ec cb m args s,
     is_Some (heap s !! ec) ->
     ∃ s' tr,
       OnPolicyReadyToEvaluate um ec cb m args s = Done () s' tr ∧
       ∀ pc pr dc dr,
         policy_calls Primary tr = [(pc, pr)] -> pr_status pr = kFailed ->
         policy_calls Default tr = [(dc, dr)] ->
         pr_status dr = kAskMeAgainLater ->
         deliveries tr = [(cb, kFailed, pr_result dr)] ∧
         reschedule_requests tr = []) ∧
  (∀ m result args s pc pr dc dr,
     let tr := trace_of (PolicyRequest um m result args s) in
     policy_calls Primary tr = [(pc, pr)] -> pr_status pr = kFailed ->
     policy_calls Default tr = [(dc, dr)] ->
     pr_status dr = kAskMeAgainLater ->
     ∃ s', PolicyRequest um m result args s = Done (kFailed, pr_result dr) s' tr).
Proof.
  split_and!.
  - intros ec m result args s [e Hl].
    destruct (EvaluatePolicy_pass ec m result args s) as
      (status & r & s' & tr & _ & _ & Hev & _); [by eauto|].
    exists status, r, s', tr. split; [exact Hev|].
    intros pc pr dc dr Hpc Hp Hdc Hd.
    destruct (EvaluatePolicy_blocked _ _ _ _ _ _ _ _ _ _ _ _ _ Hev Hpc Hp Hdc Hd)
      as [-> _].
    split_and!; try done.
    rewrite (EvaluatePolicy_run _ _ _ _ _ _ Hl) in Hev.
    set (p := invoke (policy_ um) m _ (state s) "" result args) in *.
    set (d := invoke (default_policy_ um) m _ _ _ _ _) in *.
    destruct (decide (pr_status p = kFailed)) as [Hp'|Hp']; simplify_eq.
    rewrite policy_calls_app in Hdc.
    destruct (is_expired e); simpl in Hdc; simplify_eq;
      rewrite Hd; rewrite !logged_app; set_solver.
  - intros ec cb m args s Hlive.
    destruct (OnPolicyReadyToEvaluate_pass ec cb m args s Hlive) as
      (status & r & s1 & t1 & s' & tr & Hev & Hrun & _ & _ & Hcases).
    exists s', tr. split; [exact Hrun|].
    intros pc pr dc dr Hpc Hp Hdc Hd.
    destruct (EvaluatePolicy_inv _ _ _ _ _ _ _ _ _ Hev) as
      (_ & _ & _ & _ & _ & _ & _ & _ & Hdel & Hrr & _).
    assert (Hsame : ∀ who, policy_calls who tr = policy_calls who t1).
    { intros who. destruct Hcases as [[_ ->]|[[_ ->]|[_ ->]]];
        rewrite policy_calls_app; simpl; by rewrite app_nil_r. }
    rewrite Hsame in Hpc, Hdc.
    destruct (EvaluatePolicy_blocked _ _ _ _ _ _ _ _ _ _ _ _ _ Hev Hpc Hp Hdc Hd)
      as [-> ->].
    destruct Hcases as [[_ ->]|[[? _]|[? _]]]; try done.
    rewrite deliveries_app, reschedule_requests_app, Hdel, Hrr. done.
  - intros m result args s pc pr dc dr tr Hpc Hp Hdc Hd.
    destruct (PolicyRequest_run m result args s) as
      (status & r & s1 & t1 & Hev & Hrun).
    assert (Hsame : ∀ who, policy_calls who tr = policy_calls who t1).
    { intros who. subst tr. rewrite Hrun.
      destruct (DCHECK_IS_ON um && _); simpl; [done|].
      rewrite policy_calls_app. case_bool_decide; simpl; by rewrite app_nil_r. }
    rewrite Hsame in Hpc, Hdc.
    destruct (EvaluatePolicy_blocked _ _ _ _ _ _ _ _ _ _ _ _ _ Hev Hpc Hp Hdc Hd)
      as [-> ->].
    exists s1. subst tr. rewrite Hrun. simpl. by rewrite andb_false_r.
Qed.

(** C9.  When the primary policy returns [kFailed], the default policy is
    called with an empty error slot: what it returns is its method applied
    to the objects the primary left and to the empty string.  The only log
    lines after that call are the line for the default policy's own outcome,
    which carries the error text the default policy wrote into that empty
    slot, and the closing line; the primary's error text is in neither. *)
Theorem EvaluatePolicy_clears_error ec m result args s :
  is_Some (heap s !! ec) ->
  ∃ status r s' tr pc pr,
    EvaluatePolicy um ec m result args s = Done (status, r) s' tr ∧
    policy_calls Primary tr = [(pc, pr)] ∧
    (pr_status pr = kFailed ->
       ∃ dc dr t0 t2,
         tr = t0 ++ EvPolicy Default dc dr :: t2 ∧
         policy_calls Default tr = [(dc, dr)] ∧
         pc_error dc = "" ∧
         dr = invoke (default_policy_ um) m (pr_ec pr) (pr_state pr) ""
                     (pr_result pr) args ∧
         logged t2 =
           match pr_status dr with
           | kFailed =>
               [(WARNING, "Evaluating default policy failed: " +:+ pr_error dr)]
           | kAskMeAgainLater =>
               [(ERROR,
                 "Default policy would block; this is a bug, forcing failure.")]
           | kSucceeded => []
           end ++
           [(INFO, PolicyRequestName (policy_ um) m +:+ ": END")]).
Proof.
  intros [e Hl]. rewrite (EvaluatePolicy_run _ _ _ _ _ _ Hl).
  set (e1 := ResetEvaluation _).
  set (p := invoke (policy_ um) m e1 (state s) "" result args).
  set (d := invoke (default_policy_ um) m _ _ _ _ _).
  set (pre := if is_expired e then _ else _).
  assert (Hpre : policy_calls Primary pre = [] ∧ policy_calls Default pre = []).
  { subst pre. by destruct (is_expired e). }
  destruct Hpre as [HpreP HpreD].
  destruct (decide (pr_status p = kFailed)) as [Hp|Hp].
  - eexists _, _, _, _, (mkCall m ec e1 (state s) "" result args), p.
    split; [reflexivity|].
    rewrite !policy_calls_app, HpreP, HpreD.
    destruct (pr_status d) eqn:Hd; simpl; (split; [done|]).
    all: intros _; eexists _, d, ((pre ++ [_; _; _]) ++ [_]), _.
    all: rewrite Hd; (split; [by rewrite <- !app_assoc|]); by split_and!.
  - eexists _, _, _, _, (mkCall m ec e1 (state s) "" result args), p.
    split; [reflexivity|].
    rewrite !policy_calls_app, HpreP. done.
Qed.

(** *** Expiration *)

(** C5.  A pass on a live context [e] returns.  If [e] is expired, the pass
    first logs the dump of the context, then resets the expiration, then
    resets the evaluation, and the primary policy is still called, on the
    context so reset, and the pass runs to its closing log line.  If [e] is
    not expired, the pass starts with the reset of the evaluation and resets
    no expiration.  In both cases the dispatcher resets neither again in the
    rest of the pass. *)
Theorem EvaluatePolicy_expired ec m result args s e :
  heap s !! ec = Some e ->
  ∃ status r s' tr rest pc pr,
    EvaluatePolicy um ec m result args s = Done (status, r) s' tr ∧
    (is_expired e = true ->
       tr = EvLog WARNING ("Request timed out, evaluation context: " +:+
                           DumpContext e)
            :: EvResetExpiration ec :: EvResetEvaluation ec :: rest ∧
       pc_ec_val pc = ResetEvaluation (ResetExpiration e)) ∧
    (is_expired e = false ->
       tr = EvResetEvaluation ec :: rest ∧
       (∀ l, EvResetExpiration l ∉ tr) ∧
       pc_ec_val pc = ResetEvaluation e) ∧
    policy_calls Primary rest = [(pc, pr)] ∧
    pr = invoke (policy_ um) m (pc_ec_val pc) (state s) "" result args ∧
    last rest = Some (EvLog INFO (PolicyRequestName (policy_ um) m +:+ ": END")) ∧
    (∀ l, (EvResetExpiration l ∉ rest) ∧ (EvResetEvaluation l ∉ rest)).
Proof.
  intros Hl. rewrite (EvaluatePolicy_run _ _ _ _ _ _ Hl).
  set (e1 := ResetEvaluation _).
  set (p := invoke (policy_ um) m e1 (state s) "" result args).
  set (d := invoke (default_policy_ um) m _ _ _ _ _).
  subst e1 p.
  destruct (is_expired e) eqn:Hexp;
    (destruct (decide (pr_status _ = kFailed)) as [Hp|Hp];
     [destruct (pr_status d) eqn:Hd|]);
    simpl; eexists _, _, _, _, _, (mkCall _ _ _ _ _ _ _), _;
    (split; [reflexivity|]); simpl; split_and!; try done;
    try (intros _; split_and!; [reflexivity|try reflexivity..]).
  all: try reflexivity.
  all: intros l; rewrite ?not_elem_of_cons; split_and?; try done.
  all: apply not_elem_of_nil.
Qed.

(** *** The asynchronous path *)

(** C3 (amended).  An asynchronous step on a live context returns.  If in
    that step [RunOnValueChangeOrTimeout] was called and returned false, then
    the pass had returned [kAskMeAgainLater], the bug is logged at error
    severity, the delivery callback is run exactly once, with that same
    status [kAskMeAgainLater] and the result of the pass, no closure is
    scheduled or posted, and no further pass of the request can follow. *)
Theorem OnPolicyReadyToEvaluate_unschedulable ec cb m args s :
  is_Some (heap s !! ec) ->
  ∃ status r s1 t1 s' tr,
    EvaluatePolicy um ec m (R_init um) args s = Done (status, r) s1 t1 ∧
    OnPolicyReadyToEvaluate um ec cb m args s = Done () s' tr ∧
    ∀ l c, (l, c, false) ∈ reschedule_requests tr ->
      status = kAskMeAgainLater ∧
      reschedule_requests tr = [(ec, mkClosure ec cb m args, false)] ∧
      deliveries tr = [(cb, kAskMeAgainLater, r)] ∧
      (ERROR, "Failed to schedule a reevaluation of policy " +:+
              PolicyRequestName (policy_ um) m +:+ "; this is a bug.")
        ∈ logged tr ∧
      scheduled tr = [] ∧ posted tr = [] ∧ main_loop s' = main_loop s ∧
      after_pass tr = Resolved ∧
      ∀ n s2 tr' q, passes um n (after_pass tr) s2 tr' q ->
                    n = 0 ∧ tr' = [] ∧ q = Resolved.
Proof.
  intros Hlive.
  destruct (OnPolicyReadyToEvaluate_pass ec cb m args s Hlive) as
    (status & r & s1 & t1 & s' & tr & Hev & Hrun & _ & Hml & Hcases).
  exists status, r, s1, t1, s', tr. split; [exact Hev|]. split; [exact Hrun|].
  destruct (EvaluatePolicy_inv _ _ _ _ _ _ _ _ _ Hev) as
    (_ & _ & _ & _ & _ & _ & _ & _ & Hdel & Hrr & Hsc & Hpo & _).
  intros l c.
  destruct Hcases as [[Hs ->]|[[Hs ->]|[Hs ->]]];
    rewrite reschedule_requests_app, deliveries_app, logged_app, scheduled_app,
      posted_app, Hrr, Hdel, Hsc, Hpo; simpl; intros Hin.
  - by apply elem_of_nil in Hin.
  - apply list_elem_of_singleton in Hin. by simplify_eq.
  - assert (Hafter : after_pass
              (t1 ++ [EvRunOnValueChangeOrTimeout ec (mkClosure ec cb m args) false;
                      EvLog ERROR ("Failed to schedule a reevaluation of policy " +:+
                                   PolicyRequestName (policy_ um) m +:+
                                   "; this is a bug.");
                      EvCallbackRun cb status r]) = Resolved).
    { unfold after_pass. by rewrite scheduled_app, Hsc. }
    rewrite Hafter. subst status. split_and!; try done.
    + rewrite elem_of_app. right. by apply list_elem_of_singleton.
    + intros n s2 tr' q. apply passes_Resolved.
Qed.

(** C6 (amended).  An asynchronous step on a live context returns, and does
    exactly one of two things: it runs the delivery callback once, with the
    status and the result its evaluation pass returned, and schedules
    nothing (always when that status is not [kAskMeAgainLater], and when it
    is and rescheduling was refused), or, only when the pass returned
    [kAskMeAgainLater], it schedules one closure, the one bound to the same
    values, and runs no callback.  Hence over any number
    of passes of one request the callback has run exactly once if the request
    is over and not at all while it is pending, and nothing runs after it is
    over.  (That a request is ever over is not promised.) *)
Theorem OnPolicyReadyToEvaluate_one_of_two :
  (∀ ec cb m args s,
     is_Some (heap s !! ec) ->
     ∃ status r s1 t1 s' tr,
       EvaluatePolicy um ec m (R_init um) args s = Done (status, r) s1 t1 ∧
       OnPolicyReadyToEvaluate um ec cb m args s = Done () s' tr ∧
       ((deliveries tr = [(cb, status, r)] ∧ scheduled tr = [] ∧
         (status ≠ kAskMeAgainLater ∧ reschedule_requests tr = [] ∨
          status = kAskMeAgainLater ∧
          reschedule_requests tr = [(ec, mkClosure ec cb m args, false)]))
        ∨ (status = kAskMeAgainLater ∧
           deliveries tr = [] ∧ scheduled tr = [mkClosure ec cb m args] ∧
           reschedule_requests tr = [(ec, mkClosure ec cb m args, true)])) ∧
       (status ≠ kAskMeAgainLater ->
        deliveries tr = [(cb, status, r)] ∧ scheduled tr = [] ∧
        reschedule_requests tr = [])) ∧
  (∀ n c s tr q,
     passes um n (Pending c) s tr q ->
     (q = Resolved ∧ ∃ status r, deliveries tr = [(cl_callback c, status, r)])
     ∨ (q = Pending c ∧ deliveries tr = [])) ∧
  (∀ n s tr q, passes um n Resolved s tr q -> tr = [] ∧ q = Resolved).
Proof.
  split_and!.
  - intros ec cb m args s Hlive.
    destruct (OnPolicyReadyToEvaluate_pass ec cb m args s Hlive) as
      (status & r & s1 & t1 & s' & tr & Hev & Hrun & _ & _ & Hcases).
    exists status, r, s1, t1, s', tr.
    split; [exact Hev|]. split; [exact Hrun|].
    destruct (EvaluatePolicy_inv _ _ _ _ _ _ _ _ _ Hev) as
      (_ & _ & _ & _ & _ & _ & _ & _ & Hdel & Hrr & Hsc & _).
    destruct Hcases as [[Hs ->]|[[Hs ->]|[Hs ->]]];
      rewrite deliveries_app, scheduled_app, reschedule_requests_app,
        Hdel, Hrr, Hsc; simpl.
    + split; [left; split_and!; try done; by left|done].
    + split; [by right|done].
    + split; [left; split_and!; try done; by right|done].
  - intros n c s tr q Hp. by destruct (passes_inv _ _ _ _ _ Hp) as (_&_&_&_&_&?).
  - intros n s tr q Hp. by apply passes_Resolved in Hp as (_ & ? & ?).
Qed.

(** C7.  [AsyncPolicyRequest] returns, and all it does is construct a
    context with the evaluation timeout and the expiration timeout, at an
    address that was free, and post one closure to the main loop: the one
    bound to that context, the callback, the method and the converted
    arguments.  It calls no policy method and runs no callback.  The first
    pass is what running the posted closure does: on the store the request
    left, that run returns and calls the primary policy, once. *)
Theorem AsyncPolicyRequest_posts cb m args s :
  ∃ ec s' tr c,
    AsyncPolicyRequest um cb m args s = Done () s' tr ∧
    heap s !! ec = None ∧
    c = mkClosure ec cb m (convert um args) ∧
    tr = [EvNew ec (evaluation_timeout_ um) (Some (expiration_timeout_ um));
          EvRunFromMainLoop c] ∧
    heap s' = <[ec := EvaluationContext3 (clock_ um) (evaluation_timeout_ um)
                                          (expiration_timeout_ um)]> (heap s) ∧
    state s' = state s ∧
    main_loop s' = main_loop s ++ [c] ∧
    policy_calls Primary tr = [] ∧ policy_calls Default tr = [] ∧
    deliveries tr = [] ∧ reschedule_requests tr = [] ∧
    ∃ s'' tr' pc pr,
      Closure_Run um c s' = Done () s'' tr' ∧
      policy_calls Primary tr' = [(pc, pr)] ∧
      pc_method pc = m ∧ pc_ec pc = ec ∧ pc_args pc = convert um args.
Proof.
  eexists _, _, _, _. split; [apply AsyncPolicyRequest_run|].
  split; [apply fresh_not_live|]. split_and!; try reflexivity.
  set (ec := fresh (dom (heap s))).
  set (s' := mkStore _ _ _).
  assert (Hlive : is_Some (heap s' !! ec)).
  { subst s'. simpl. rewrite lookup_insert_eq. by eauto. }
  destruct (OnPolicyReadyToEvaluate_pass ec cb m (convert um args) s' Hlive) as
    (status & r & s1 & t1 & s'' & tr' & Hev & Hrun & _ & _ & Hcases).
  destruct (EvaluatePolicy_inv _ _ _ _ _ _ _ _ _ Hev) as
    (pc & pr & _ & _ & Hpc & Hm & Hec & Hargs & _).
  exists s'', tr', pc, pr. split; [exact Hrun|]. split_and!; try done.
  destruct Hcases as [[_ ->]|[[_ ->]|[_ ->]]];
    rewrite policy_calls_app, Hpc; reflexivity.
Qed.

(** C8.  The closure an asynchronous request posts holds the context the
    request constructed, the method, and the arguments already converted to
    the declared parameter types.  However many passes of that request run,
    and whatever happens to the store in between, every call of a policy
    method in them is a call of that method on that context with those
    converted arguments; every rescheduling binds the same closure again; and
    each pass calls the primary policy once. *)
Theorem AsyncPolicyRequest_same_request cb m args s :
  ∃ s' tr0 c,
    AsyncPolicyRequest um cb m args s = Done () s' tr0 ∧
    posted tr0 = [c] ∧ created tr0 = [(cl_ec c, evaluation_timeout_ um,
                                        Some (expiration_timeout_ um))] ∧
    cl_callback c = cb ∧ cl_method c = m ∧ cl_args c = convert um args ∧
    ∀ n s2 tr q,
      passes um n (Pending c) s2 tr q ->
      (∀ who pc pr, (pc, pr) ∈ policy_calls who tr ->
         pc_method pc = m ∧ pc_ec pc = cl_ec c ∧ pc_args pc = convert um args) ∧
      (∀ l c' ok, (l, c', ok) ∈ reschedule_requests tr -> l = cl_ec c ∧ c' = c) ∧
      length (policy_calls Primary tr) = n ∧
      created tr = [] ∧
      (q = Resolved ∨ q = Pending c).
Proof.
  eexists _, _, _. split; [apply AsyncPolicyRequest_run|].
  split_and!; try reflexivity.
  intros n s2 tr q Hp.
  destruct (passes_inv _ _ _ _ _ Hp) as (Hcalls & Hrr & Hlen & _ & Hcr & Hend).
  split_and!; try done.
  destruct Hend as [[? _]|[? _]]; by eauto.
Qed.

(** *** The synchronous path *)

(** C4 (amended).  A synchronous request constructs one context, with the
    evaluation timeout only, at an address that was free, and runs one
    evaluation pass on it, with the converted arguments: its trace is the
    construction, the trace of that pass, and at most the warning.  It asks
    for no rescheduling, posts nothing and runs no callback.  In a build
    without DCHECKs, or when the pass did not return [kAskMeAgainLater], the
    request returns the status and the result of the pass as they are; so in
    a build without DCHECKs a pass that returned [kAskMeAgainLater] gives the
    caller [kAskMeAgainLater].  In a build with DCHECKs a pass that returned
    [kAskMeAgainLater] makes the request stop at the DCHECK, right after the
    pass, without the warning and without returning. *)
Theorem PolicyRequest_single_pass m result args s :
  ∃ ec status r s1 t1 epilogue,
    heap s !! ec = None ∧
    EvaluatePolicy um ec m result (convert um args)
      (mkStore (<[ec := EvaluationContext2 (clock_ um) (evaluation_timeout_ um)]>
                  (heap s)) (state s) (main_loop s))
      = Done (status, r) s1 t1 ∧
    let tr := trace_of (PolicyRequest um m result args s) in
    tr = EvNew ec (evaluation_timeout_ um) None :: t1 ++ epilogue ∧
    (epilogue = [] ∨
     epilogue = [EvLog WARNING
                   "Sync request used with an async policy; this is a bug"]) ∧
    created tr = [(ec, evaluation_timeout_ um, None)] ∧
    length (policy_calls Primary tr) = 1 ∧
    reschedule_requests tr = [] ∧ posted tr = [] ∧ deliveries tr = [] ∧
    (DCHECK_IS_ON um = false ∨ status ≠ kAskMeAgainLater ->
     PolicyRequest um m result args s = Done (status, r) s1 tr) ∧
    (DCHECK_IS_ON um = true -> status = kAskMeAgainLater ->
     PolicyRequest um m result args s = Stopped DcheckFailed s1 tr ∧
     epilogue = []).
Proof.
  destruct (PolicyRequest_run m result args s) as
    (status & r & s1 & t1 & Hev & Hrun).
  destruct (EvaluatePolicy_inv _ _ _ _ _ _ _ _ _ Hev) as
    (pc & pr & _ & _ & Hpc & _ & _ & _ & Hdel & Hrr & _ & Hpo & Hcr & _).
  assert (Hcount : ∀ epilogue,
            epilogue = [] ∨
            epilogue = [EvLog WARNING
                          "Sync request used with an async policy; this is a bug"] ->
            let tr := EvNew (fresh (dom (heap s))) (evaluation_timeout_ um) None
                      :: t1 ++ epilogue in
            created tr = [(fresh (dom (heap s)), evaluation_timeout_ um, None)] ∧
            length (policy_calls Primary tr) = 1 ∧
            reschedule_requests tr = [] ∧ posted tr = [] ∧ deliveries tr = []).
  { intros epilogue Hep tr. subst tr. simpl.
    rewrite created_app, policy_calls_app, reschedule_requests_app, posted_app,
      deliveries_app, Hcr, Hpc, Hrr, Hpo, Hdel.
    by destruct Hep as [-> | ->]. }
  rewrite Hrun.
  destruct (DCHECK_IS_ON um) eqn:Hdbg, (decide (status = kAskMeAgainLater))
    as [->|Hs]; simpl;
    rewrite ?bool_decide_eq_false_2 by done; simpl.
  - exists (fresh (dom (heap s))), kAskMeAgainLater, r, s1, t1, [].
    split; [apply fresh_not_live|]. split; [exact Hev|].
    split; [by rewrite app_nil_r|]. split; [by left|].
    split_and!; try (by intros [|]); try (by intros _ _);
      rewrite <- (app_nil_r t1); apply Hcount; by left.
  - exists (fresh (dom (heap s))), status, r, s1, t1, [].
    split; [apply fresh_not_live|]. split; [exact Hev|].
    split; [reflexivity|]. split; [by left|].
    split_and!; try (apply Hcount; by left); try done; by intros.
  - eexists (fresh (dom (heap s))), kAskMeAgainLater, r, s1, t1, [_].
    split; [apply fresh_not_live|]. split; [exact Hev|].
    split; [reflexivity|]. split; [by right|].
    split_and!; try (apply Hcount; by right); try done; by intros.
  - exists (fresh (dom (heap s))), status, r, s1, t1, [].
    split; [apply fresh_not_live|]. split; [exact Hev|].
    split; [reflexivity|]. split; [by left|].
    split_and!; try (apply Hcount; by left); try done; by intros.
Qed.

(** C10.  The DCHECK of [PolicyRequest] fails exactly when the primary policy
    returned [kAskMeAgainLater] in the pass of the request.  In that case a
    build with DCHECKs stops at the check, right after the pass, with no
    status returned and no warning logged; a build without them logs the
    warning after the pass and returns [kAskMeAgainLater].  When the primary
    policy returned anything else, the request returns the status of the
    pass, which is not [kAskMeAgainLater], in both kinds of build. *)
Theorem PolicyRequest_dcheck m result args s :
  ∃ ec status r s1 t1 pc pr,
    ec = fresh (dom (heap s)) ∧
    EvaluatePolicy um ec m result (convert um args)
      (mkStore (<[ec := EvaluationContext2 (clock_ um) (evaluation_timeout_ um)]>
                  (heap s)) (state s) (main_loop s))
      = Done (status, r) s1 t1 ∧
    policy_calls Primary t1 = [(pc, pr)] ∧
    (pr_status pr = kAskMeAgainLater ->
     PolicyRequest um m result args s =
       if DCHECK_IS_ON um
       then Stopped DcheckFailed s1 (EvNew ec (evaluation_timeout_ um) None :: t1)
       else Done (kAskMeAgainLater, r) s1
                 (EvNew ec (evaluation_timeout_ um) None :: t1 ++
                  [EvLog WARNING
                     "Sync request used with an async policy; this is a bug"])) ∧
    (pr_status pr ≠ kAskMeAgainLater ->
     status ≠ kAskMeAgainLater ∧
     PolicyRequest um m result args s =
       Done (status, r) s1 (EvNew ec (evaluation_timeout_ um) None :: t1)).
Proof.
  destruct (PolicyRequest_run m result args s) as
    (status & r & s1 & t1 & Hev & Hrun).
  destruct (EvaluatePolicy_inv _ _ _ _ _ _ _ _ _ Hev) as
    (pc & pr & _ & _ & Hpc & _).
  pose proof (EvaluatePolicy_asks _ _ _ _ _ _ _ _ _ _ _ Hev Hpc) as Hasks.
  eexists _, status, r, s1, t1, pc, pr. split; [reflexivity|].
  split; [exact Hev|]. split; [exact Hpc|]. rewrite Hrun. split.
  - intros Hp. apply Hasks in Hp as ->. by destruct (DCHECK_IS_ON um).
  - intros Hp. assert (Hs : status ≠ kAskMeAgainLater) by (by rewrite Hasks).
    split; [done|]. rewrite bool_decide_eq_false_2 by done.
    by rewrite andb_false_r, app_nil_r.
Qed.

End Properties.

(** ** The templates on the small instance *)

(** Turns an equation between a computed outcome and a pattern of variables
    into the values of the variables. *)
Ltac concrete H := vm_compute in H; simplify_eq.


(** C2 on the small instance: the primary policy fails, the default policy
    asks to be called again, and the pass returns [kFailed]. *)
Lemma EvaluatePolicy_default_would_block_witness :
  ∃ status r s' tr,
    EvaluatePolicy (ops:=Toy.ops) (Toy.um false) 4 Toy.blocked 0 8 Toy.s_idle
      = Done (status, r) s' tr ∧
    status = kFailed.
Proof.
  destruct (EvaluatePolicy_default_would_block (ops:=Toy.ops) (Toy.um false))
    as (Hpass & _ & _).
  destruct (Hpass 4 Toy.blocked 0 8 Toy.s_idle) as
    (status & r & s' & tr & Hev & Himp).
  { vm_compute. eauto. }
  exists status, r, s', tr. split; [exact Hev|].
  concrete Hev.
  edestruct Himp as (Hs & _); [vm_compute; reflexivity ..|exact Hs].
Defined.

(** C3 on the small instance: the primary policy asks to be called again on
    a context with nothing to wait for; the callback gets
    [kAskMeAgainLater], and the request is over. *)
Lemma OnPolicyReadyToEvaluate_unschedulable_witness :
  ∃ s' tr,
    OnPolicyReadyToEvaluate (ops:=Toy.ops) (Toy.um false) 4 1 Toy.waiting 8
      Toy.s_idle = Done () s' tr ∧
    deliveries tr = [(1, kAskMeAgainLater, 8)] ∧
    after_pass tr = Resolved.
Proof.
  destruct (OnPolicyReadyToEvaluate_unschedulable (ops:=Toy.ops) (Toy.um false)
              4 1 Toy.waiting 8 Toy.s_idle) as
    (status & r & s1 & t1 & s' & tr & Hev & Hrun & Himp).
  { vm_compute. eauto. }
  exists s', tr. split; [exact Hrun|].
  concrete Hev. concrete Hrun.
  destruct (Himp 4 Toy.request) as (_ & _ & Hdel & _ & _ & _ & _ & Hafter & _).
  { vm_compute. constructor. }
  split; [exact Hdel|exact Hafter].
Defined.

(** C3 as it was stated fails: in that same step [RunOnValueChangeOrTimeout]
    returned false and the callback ran once, but with [kAskMeAgainLater],
    not with [kFailed]. *)
Lemma OnPolicyReadyToEvaluate_unschedulable_not_failed :
  ∃ s' tr,
    OnPolicyReadyToEvaluate (ops:=Toy.ops) (Toy.um false) 4 1 Toy.waiting 8
      Toy.s_idle = Done () s' tr ∧
    policy_calls Primary tr ≠ [] ∧
    reschedule_requests tr = [(4, Toy.request, false)] ∧
    deliveries tr = [(1, kAskMeAgainLater, 8)] ∧
    ¬ ∃ r, deliveries tr = [(1, kFailed, r)].
Proof.
  eexists _, _. split; [vm_compute; reflexivity|].
  split_and!; [done..|]. intros [r Hr]. vm_compute in Hr. discriminate Hr.
Qed.

(** C4 on the small instance: a build without DCHECKs, a method the primary
    policy asks to be called again for; the caller gets
    [kAskMeAgainLater], from one pass on a new context 0 that has no
    expiration timeout, and nothing is rescheduled. *)
Lemma PolicyRequest_single_pass_witness :
  ∃ r s' tr,
    PolicyRequest (ops:=Toy.ops) (Toy.um false) Toy.waiting 0 true Toy.s_empty
      = Done (kAskMeAgainLater, r) s' tr ∧
    created tr = [(0, 5, None)] ∧ reschedule_requests tr = [].
Proof.
  destruct (PolicyRequest_single_pass (ops:=Toy.ops) (Toy.um false) Toy.waiting
              0 true Toy.s_empty) as
    (ec & status & r & s1 & t1 & epilogue & _ & Hev & Htr & _ & Hcr & _ & Hrr
     & _ & _ & Hret & _).
  specialize (Hret (or_introl eq_refl)).
  exists r, s1, (trace_of (PolicyRequest (ops:=Toy.ops) (Toy.um false)
                            Toy.waiting 0 true Toy.s_empty)).
  concrete Hcr. concrete Hev. split; [exact Hret|]. split; reflexivity.
Defined.

(** C4 as it was stated fails in a build with DCHECKs: the pass of the
    request returns [kAskMeAgainLater], and the request stops at the DCHECK;
    no status reaches the caller. *)
Lemma PolicyRequest_debug_build_stops :
  (∃ r s1 t1,
     EvaluatePolicy (ops:=Toy.ops) (Toy.um true) 0 Toy.waiting 0 1
       (mkStore {[ 0 := Toy.mkCtx false false 0 ]} 0 [])
       = Done (kAskMeAgainLater, r) s1 t1) ∧
  (∃ s' tr,
     PolicyRequest (ops:=Toy.ops) (Toy.um true) Toy.waiting 0 true Toy.s_empty
       = Stopped DcheckFailed s' tr) ∧
  ¬ ∃ status r s' tr,
      PolicyRequest (ops:=Toy.ops) (Toy.um true) Toy.waiting 0 true Toy.s_empty
        = Done (status, r) s' tr.
Proof.
  split_and!.
  - eexists _, _, _. vm_compute. reflexivity.
  - eexists _, _. vm_compute. reflexivity.
  - intros (status & r & s' & tr & H). vm_compute in H. discriminate H.
Qed.

(** C5 on the small instance: an expired context; the pass logs the dump,
    resets the expiration, resets the evaluation, and goes on to the
    primary policy, which answers. *)
Lemma EvaluatePolicy_expired_witness :
  ∃ r s' rest,
    EvaluatePolicy (ops:=Toy.ops) (Toy.um false) 4 Toy.decided 0 8 Toy.s_expired
      = Done (kSucceeded, r) s'
             (EvLog WARNING "Request timed out, evaluation context: expired"
              :: EvResetExpiration 4 :: EvResetEvaluation 4 :: rest) ∧
    length (policy_calls Primary rest) = 1.
Proof.
  destruct (EvaluatePolicy_expired (ops:=Toy.ops) (Toy.um false) 4 Toy.decided
              0 8 Toy.s_expired (Toy.mkCtx true true 3)) as
    (status & r & s' & tr & rest & pc & pr & Hev & Hexp & _ & Hpc & _).
  { vm_compute. reflexivity. }
  destruct (Hexp eq_refl) as [-> _].
  exists r, s', rest. rewrite Hpc. split; [|reflexivity].
  rewrite Hev. concrete Hev. reflexivity.
Defined.

(** C9 on the small instance: both policies fail; the default policy finds
    an empty error slot and the error it reports is its own. *)
Lemma EvaluatePolicy_clears_error_witness :
  ∃ status r s' tr dc dr,
    EvaluatePolicy (ops:=Toy.ops) (Toy.um false) 4 (Toy.Answer kFailed kFailed)
      0 8 Toy.s_idle = Done (status, r) s' tr ∧
    policy_calls Default tr = [(dc, dr)] ∧
    pc_error dc = "" ∧ pr_error dr = "default gave up" ∧
    (WARNING, "Evaluating default policy failed: default gave up") ∈ logged tr.
Proof.
  destruct (EvaluatePolicy_clears_error (ops:=Toy.ops) (Toy.um false) 4
              (Toy.Answer kFailed kFailed) 0 8 Toy.s_idle) as
    (status & r & s' & tr & pc & pr & Hev & Hpc & Hfail).
  { vm_compute. eauto. }
  exists status, r, s', tr. concrete Hev. concrete Hpc.
  destruct (Hfail eq_refl) as (dc & dr & t0 & t2 & _ & Hdc & Herr & Hdr & _).
  exists dc, dr. concrete Hdc.
  split_and!; try reflexivity. vm_compute. do 3 constructor.
Defined.

(** C10 on the small instance: the same misuse in the two kinds of build. *)
Lemma PolicyRequest_dcheck_witness :
  (∃ s' tr,
     PolicyRequest (ops:=Toy.ops) (Toy.um true) Toy.waiting 0 true Toy.s_empty
       = Stopped DcheckFailed s' tr) ∧
  (∃ r s' tr,
     PolicyRequest (ops:=Toy.ops) (Toy.um false) Toy.waiting 0 true Toy.s_empty
       = Done (kAskMeAgainLater, r) s' tr).
Proof.
  split.
  - destruct (PolicyRequest_dcheck (ops:=Toy.ops) (Toy.um true) Toy.waiting
                0 true Toy.s_empty) as
      (ec & status & r & s1 & t1 & pc & pr & -> & Hev & Hpc & Hask & _).
    rewrite Hask; [simpl; by eauto|].
    concrete Hev. by concrete Hpc.
  - destruct (PolicyRequest_dcheck (ops:=Toy.ops) (Toy.um false) Toy.waiting
                0 true Toy.s_empty) as
      (ec & status & r & s1 & t1 & pc & pr & -> & Hev & Hpc & Hask & _).
    rewrite Hask; [simpl; by eauto|].
    concrete Hev. by concrete Hpc.
Defined.

(** *** A request that is never over *)

(** With a context that always finds something to wait for, a pass of the
    request for [waiting] ends with the request scheduled again. *)
Lemma eager_pass s e :
  heap s !! 4 = Some e ->
  ∃ s' tr e',
    Closure_Run (ops:=Toy.eager_ops) (Toy.um false) Toy.request s = Done () s' tr ∧
    heap s' !! 4 = Some e' ∧
    after_pass tr = Pending Toy.request ∧ deliveries tr = [].
Proof.
  intros Hl. unfold Closure_Run, Toy.request. simpl.
  pose proof (EvaluatePolicy_run (ops:=Toy.eager_ops) (Toy.um false) 4
                Toy.waiting 0 8 s e Hl) as Hev.
  simpl in Hev.
  erewrite OnPolicyReadyToEvaluate_run;
    [|exact Hev|simpl; apply lookup_insert_eq].
  simpl. eexists _, _, _. split; [reflexivity|]. simpl.
  rewrite lookup_insert_eq. split; [reflexivity|].
  unfold after_pass. by destruct (Toy.expired e).
Qed.

Lemma eager_pass_inv s s' tr :
  Closure_Run (ops:=Toy.eager_ops) (Toy.um false) Toy.request s = Done () s' tr ->
  after_pass tr = Pending Toy.request ∧ deliveries tr = [].
Proof.
  intros Hrun. destruct (heap s !! 4) as [e|] eqn:Hl.
  - destruct (eager_pass s e Hl) as (s1 & tr1 & e' & Hrun' & _ & ? & ?).
    rewrite Hrun in Hrun'. by simplify_eq.
  - unfold Closure_Run in Hrun. simpl in Hrun.
    by rewrite OnPolicyReadyToEvaluate_dangling in Hrun.
Qed.

Lemma eager_passes_pending n s e :
  heap s !! 4 = Some e ->
  ∃ tr, passes (ops:=Toy.eager_ops) (Toy.um false) n (Pending Toy.request) s tr
               (Pending Toy.request).
Proof.
  revert s e. induction n as [|n IH]; intros s e Hl.
  - exists []. constructor.
  - destruct (eager_pass s e Hl) as (s' & tr & e' & Hrun & Hl' & Hafter & _).
    destruct (IH s' e' Hl') as [tr' Hp].
    exists (tr ++ tr'). apply (passes_fire _ _ _ _ s' _ s'); [exact Hrun|].
    by rewrite Hafter.
Qed.

Lemma eager_passes_silent n s tr q :
  passes (ops:=Toy.eager_ops) (Toy.um false) n (Pending Toy.request) s tr q ->
  deliveries tr = [] ∧ q = Pending Toy.request.
Proof.
  revert s tr q. induction n as [|n IH]; intros s tr q Hp.
  - by inversion Hp; subst.
  - inversion Hp as [|n' c' s' s1 t1 s2 t2 q' Hrun Hrest]; subst.
    destruct (eager_pass_inv _ _ _ Hrun) as [Hafter Hdel].
    rewrite Hafter in Hrest. destruct (IH _ _ _ Hrest) as [Hdel' ->].
    by rewrite deliveries_app, Hdel, Hdel'.
Qed.

(** C6 as it was stated fails: the request for [waiting] on a context that
    always finds something to wait for is never given up (every closure it
    schedules can be run, any number of times), and yet its callback is
    never run, however many passes there are. *)
Lemma passes_never_deliver :
  (∀ n, ∃ tr, passes (ops:=Toy.eager_ops) (Toy.um false) n
                     (Pending Toy.request) Toy.s_idle tr (Pending Toy.request)) ∧
  ¬ ∃ n tr q, passes (ops:=Toy.eager_ops) (Toy.um false) n
                     (Pending Toy.request) Toy.s_idle tr q ∧
              deliveries tr ≠ [].
Proof.
  split.
  - intros n. by apply (eager_passes_pending n Toy.s_idle (Toy.mkCtx false false 3)).
  - intros (n & tr & q & Hp & Hdel). by apply eager_passes_silent in Hp as [? _].
Qed.

(** C6 on the small instance: a request on an expired context with
    something to wait for, for a method the primary policy answers at its
    second call.  The first pass schedules the closure and delivers nothing;
    after the second pass the request is over and the callback has run
    once. *)
Lemma OnPolicyReadyToEvaluate_one_of_two_witness :
  (∃ s' tr,
     OnPolicyReadyToEvaluate (ops:=Toy.ops) (Toy.um false) 4 1 (Toy.Ready_after 1)
       8 Toy.s_expired = Done () s' tr ∧
     deliveries tr = [] ∧ scheduled tr = [mkClosure 4 1 (Toy.Ready_after 1) 8]) ∧
  (∃ tr, passes (ops:=Toy.ops) (Toy.um false) 2
                (Pending (mkClosure 4 1 (Toy.Ready_after 1) 8)) Toy.s_expired tr
                Resolved ∧
         deliveries tr = [(1, kSucceeded, 8)]).
Proof.
  destruct (OnPolicyReadyToEvaluate_one_of_two (ops:=Toy.ops) (Toy.um false))
    as (Hstep & Hrun & _).
  split.
  - destruct (Hstep 4 1 (Toy.Ready_after 1) 8 Toy.s_expired) as
      (status & r & s1 & t1 & s' & tr & Hev & Heq & Hcases & _).
    { vm_compute. eauto. }
    exists s', tr. split; [exact Heq|]. concrete Heq.
    destruct Hcases as [(Hdel & _)|(_ & Hdel & Hsc & _)];
      [vm_compute in Hdel; discriminate Hdel|by split].
  - eexists.
    eassert (Hp : passes (ops:=Toy.ops) (Toy.um false) 2
                    (Pending (mkClosure 4 1 (Toy.Ready_after 1) 8))
                    Toy.s_expired _ Resolved).
    { refine (passes_fire _ _ _ _ ?[s1] _ ?s1 _ _ _ _);
        [vm_compute; reflexivity|].
      refine (passes_fire _ _ _ _ ?[s2] _ ?s2 _ _ _ _);
        [vm_compute; reflexivity|].
      apply passes_none. }
    split; [exact Hp|].
    destruct (Hrun _ _ _ _ _ Hp) as [[_ (status & r & Hdel)]|[Hq _]];
      [|discriminate Hq].
    rewrite Hdel. by concrete Hdel.
Defined.

(** C8 on the small instance: an asynchronous request with the caller's
    argument [true], converted to 1 on entry, for a method the primary
    policy answers at its second call.  Both passes call the primary policy
    on context 0 with the argument 1. *)
Lemma AsyncPolicyRequest_same_request_witness :
  ∃ s' tr0 c tr,
    AsyncPolicyRequest (ops:=Toy.ops) (Toy.um false) 1 (Toy.Ready_after 1) true
      Toy.s_empty = Done () s' tr0 ∧
    posted tr0 = [c] ∧
    passes (ops:=Toy.ops) (Toy.um false) 2 (Pending c) s' tr Resolved ∧
    length (policy_calls Primary tr) = 2 ∧
    ∀ pc pr, (pc, pr) ∈ policy_calls Primary tr -> pc_ec pc = 0 ∧ pc_args pc = 1.
Proof.
  destruct (AsyncPolicyRequest_same_request (ops:=Toy.ops) (Toy.um false) 1
              (Toy.Ready_after 1) true Toy.s_empty) as
    (s' & tr0 & c & Hreq & Hpo & _ & _ & _ & _ & Hall).
  exists s', tr0, c. concrete Hreq. concrete Hpo.
  eexists. split; [reflexivity|]. split; [reflexivity|].
  eassert (Hp : passes (ops:=Toy.ops) (Toy.um false) 2
                 (Pending (mkClosure 0 1 (Toy.Ready_after 1) 1))
                 (mkStore {[ 0 := Toy.mkCtx false true 0 ]} 0
                          [mkClosure 0 1 (Toy.Ready_after 1) 1])
                 _ Resolved).
  { refine (passes_fire _ _ _ _ ?[s1] _ ?s1 _ _ _ _);
      [vm_compute; reflexivity|].
    refine (passes_fire _ _ _ _ ?[s2] _ ?s2 _ _ _ _);
      [vm_compute; reflexivity|].
    apply passes_none. }
  split; [exact Hp|].
  destruct (Hall _ _ _ _ Hp) as (Hcalls & _ & Hlen & _).
  split; [exact Hlen|]. intros pc pr Hin.
  destruct (Hcalls Primary pc pr Hin) as (_ & ? & ?). by split.
Defined.

(** ** More of what the templates do *)

Section PassHelpers.

Context {EC State R Args ActualArgs Method Callback Clock TimeDelta : Type}.
Context `{ops : !EvaluationContextOps (EC:=EC) (Args:=Args) (Method:=Method)
                   (Callback:=Callback) (Clock:=Clock) (TimeDelta:=TimeDelta)}.
Variable um : UpdateManager (EC:=EC) (State:=State) (R:=R) (Args:=Args)
                (ActualArgs:=ActualArgs) (Method:=Method) (Clock:=Clock)
                (TimeDelta:=TimeDelta).

Implicit Types (s : Store (EC:=EC) (State:=State) (Args:=Args) (Method:=Method)
                      (Callback:=Callback)).
Implicit Types (tr : list (Event (EC:=EC) (State:=State) (R:=R) (Args:=Args)
                             (Method:=Method) (Callback:=Callback)
                             (TimeDelta:=TimeDelta))).
Implicit Types (c : Closure (Args:=Args) (Method:=Method) (Callback:=Callback)).

(** *** Helpers *)


(** An asynchronous step that returned is a pass followed by one of three
    endings. *)
Lemma OnPolicyReadyToEvaluate_inv ec cb m args s s' tr :
  OnPolicyReadyToEvaluate um ec cb m args s = Done () s' tr ->
  ∃ status r s1 t1 tail,
    EvaluatePolicy um ec m (R_init um) args s = Done (status, r) s1 t1 ∧
    tr = t1 ++ tail ∧
    (∃ e', heap s' = <[ec := e']> (heap s1)) ∧
    state s' = state s1 ∧ main_loop s' = main_loop s1 ∧
    let c := mkClosure ec cb m args in
    ((status ≠ kAskMeAgainLater ∧ tail = [EvCallbackRun cb status r]) ∨
     (status = kAskMeAgainLater ∧ tail = [EvRunOnValueChangeOrTimeout ec c true]) ∨
     (status = kAskMeAgainLater ∧
      tail = [EvRunOnValueChangeOrTimeout ec c false;
              EvLog ERROR ("Failed to schedule a reevaluation of policy " +:+
                           PolicyRequestName (policy_ um) m +:+
                           "; this is a bug.");
              EvCallbackRun cb status r])).
Proof.
  intros Hrun. destruct (heap s !! ec) as [e|] eqn:Hl;
    [|by rewrite (OnPolicyReadyToEvaluate_dangling um _ _ _ _ _ Hl) in Hrun].
  destruct (EvaluatePolicy_pass um ec m (R_init um) args s) as
    (status & r & s1 & t1 & pc & pr & Hev & [e1 Hl1] & _); [by eauto|].
  rewrite (OnPolicyReadyToEvaluate_run um _ cb _ _ _ _ _ _ _ _ Hev Hl1) in Hrun.
  exists status, r, s1, t1.
  destruct (decide (status ≠ kAskMeAgainLater)) as [Hs|Hs]; simplify_eq.
  - eexists. split_and!; try done.
    + exists e1. by rewrite insert_id.
    + by left.
  - apply dec_stable in Hs.
    destruct (RunOnValueChangeOrTimeout _ e1) as [[] e2] eqn:Hr;
      simpl in *; eexists; split_and!; by eauto.
Qed.

(** A property of traces that holds of the empty trace, of the trace of
    every pass, and of every concatenation, holds of any number of passes. *)
Lemma passes_ind_trace (P : list Event -> Prop) :
  P [] ->
  (∀ tr1 tr2, P tr1 -> P tr2 -> P (tr1 ++ tr2)) ->
  (∀ c s s1 tr, Closure_Run um c s = Done () s1 tr -> P tr) ->
  ∀ n q s tr q', passes um n q s tr q' -> P tr.
Proof.
  intros Hnil Happ Hpass n q s tr q' Hp.
  induction Hp as [|n c s s1 tr s2 tr' q Hrun _ IH]; [done|].
  apply Happ; [by eapply Hpass|done].
Qed.

End PassHelpers.

Section Passes.

Context {EC State R Args ActualArgs Method Callback Clock TimeDelta : Type}.
Context `{ops : !EvaluationContextOps (EC:=EC) (Args:=Args) (Method:=Method)
                   (Callback:=Callback) (Clock:=Clock) (TimeDelta:=TimeDelta)}.
Variable um : UpdateManager (EC:=EC) (State:=State) (R:=R) (Args:=Args)
                (ActualArgs:=ActualArgs) (Method:=Method) (Clock:=Clock)
                (TimeDelta:=TimeDelta).

Implicit Types (s : Store (EC:=EC) (State:=State) (Args:=Args) (Method:=Method)
                      (Callback:=Callback)).
Implicit Types (tr : list (Event (EC:=EC) (State:=State) (R:=R) (Args:=Args)
                             (Method:=Method) (Callback:=Callback)
                             (TimeDelta:=TimeDelta))).
Implicit Types (c : Closure (Args:=Args) (Method:=Method) (Callback:=Callback)).

(** *** The outcome of a pass *)

(** X1.  A pass on a live context returns, and its status follows from the
    two policies' answers: it is [kAskMeAgainLater] exactly when the primary
    policy answered so, and [kSucceeded] exactly when the primary policy
    succeeded or it failed and the default policy succeeded.  The result
    handed back, the [State] and the context left in the store are those the
    last policy call of the pass left. *)
Theorem EvaluatePolicy_status ec m result args s :
  is_Some (heap s !! ec) ->
  ∃ status r s' tr pc pr,
    EvaluatePolicy um ec m result args s = Done (status, r) s' tr ∧
    policy_calls Primary tr = [(pc, pr)] ∧
    (status = kAskMeAgainLater <-> pr_status pr = kAskMeAgainLater) ∧
    (status = kSucceeded <->
     pr_status pr = kSucceeded ∨
     (pr_status pr = kFailed ∧
      ∃ dc dr, policy_calls Default tr = [(dc, dr)] ∧ pr_status dr = kSucceeded)) ∧
    ∃ lc lr,
      last (policy_calls Primary tr ++ policy_calls Default tr) = Some (lc, lr) ∧
      r = pr_result lr ∧ state s' = pr_state lr ∧
      heap s' !! ec = Some (pr_ec lr).
Proof.
  intros [e Hl]. rewrite (EvaluatePolicy_run um _ _ _ _ _ _ Hl).
  set (e1 := ResetEvaluation _).
  set (p := invoke (policy_ um) m e1 (state s) "" result args).
  set (d := invoke (default_policy_ um) m _ _ _ _ _).
  set (pre := if is_expired e then _ else _).
  assert (Hpre : policy_calls Primary pre = [] ∧ policy_calls Default pre = []).
  { subst pre. by destruct (is_expired e). }
  destruct Hpre as [HpreP HpreD].
  destruct (decide (pr_status p = kFailed)) as [Hp|Hp].
  - eexists _, _, _, _, (mkCall m ec e1 (state s) "" result args), p.
    split; [reflexivity|].
    rewrite !policy_calls_app, HpreP, HpreD. simpl. rewrite lookup_insert_eq.
    destruct (pr_status d) eqn:Hd; simpl; rewrite Hp.
    all: split_and!; try done; try (eexists _, d; by split_and!).
    all: split;
      [intros ?; first [done | right; split; [done|]; eexists _, d; by split]
      |intros [?|[_ (dc & dr & Heq & Hs)]]; [done|simplify_eq; congruence]].
  - eexists _, _, _, _, (mkCall m ec e1 (state s) "" result args), p.
    split; [reflexivity|].
    rewrite !policy_calls_app, HpreP, HpreD. simpl. rewrite lookup_insert_eq.
    split_and!; try done; try (eexists _, p; by split_and!).
    split; [by left|]. by intros [?|[? _]].
Qed.

(** *** What the callback is given *)

(** X3.  When an asynchronous step runs a callback, it is the callback of
    the request, it is given exactly the status and the result the
    evaluation pass of that step returned, and running it is the last thing
    the step does. *)
Theorem OnPolicyReadyToEvaluate_delivers_outcome
    ec cb m args s s' tr cb' status r :
  OnPolicyReadyToEvaluate um ec cb m args s = Done () s' tr ->
  (cb', status, r) ∈ deliveries tr ->
  cb' = cb ∧
  last tr = Some (EvCallbackRun cb status r) ∧
  ∃ s1 t1 mid,
    EvaluatePolicy um ec m (R_init um) args s = Done (status, r) s1 t1 ∧
    tr = t1 ++ mid ++ [EvCallbackRun cb status r] ∧ deliveries (t1 ++ mid) = [].
Proof.
  intros Hrun Hin.
  destruct (OnPolicyReadyToEvaluate_inv um _ _ _ _ _ _ _ Hrun) as
    (status' & r' & s1 & t1 & tail & Hev & -> & _ & _ & _ & Hcases).
  destruct (EvaluatePolicy_inv um _ _ _ _ _ _ _ _ _ Hev) as
    (_ & _ & _ & _ & _ & _ & _ & _ & Hdel & _).
  rewrite deliveries_app, Hdel in Hin. simpl in Hin.
  destruct Hcases as [[_ ->]|[[_ ->]|[_ ->]]]; simpl in Hin.
  - apply list_elem_of_singleton in Hin. simplify_eq.
    split_and!; [done|by rewrite last_snoc|].
    exists s1, t1, []. rewrite app_nil_r. by split_and!.
  - by apply elem_of_nil in Hin.
  - apply list_elem_of_singleton in Hin. simplify_eq.
    split_and!; [done| |].
    + by rewrite last_app.
    + exists s1, t1, [EvRunOnValueChangeOrTimeout ec (mkClosure ec cb m args) false;
           EvLog ERROR ("Failed to schedule a reevaluation of policy " +:+
                        PolicyRequestName (policy_ um) m +:+ "; this is a bug.")].
      split_and!; try done. by rewrite deliveries_app, Hdel.
Qed.

(** X4.  When a request is over, the run of its callback is the last event
    of all its passes: the dispatcher does nothing for a request after it
    has delivered. *)
Theorem passes_delivery_last n c s tr :
  passes um n (Pending c) s tr Resolved ->
  ∃ t status r,
    tr = t ++ [EvCallbackRun (cl_callback c) status r] ∧ deliveries t = [].
Proof.
  revert c s tr. induction n as [|n IH]; intros c s tr Hp.
  - inversion Hp.
  - inversion Hp as [|n' c' s0 s1 t s2 tr' q' Hrun Hrest]; subst.
    destruct (after_pass_Closure_Run um _ _ _ _ Hrun) as
      [[Hq (status & r & Hdel)]|[Hq Hdel]]; rewrite Hq in Hrest.
    + apply passes_Resolved in Hrest as (_ & -> & _). rewrite app_nil_r.
      destruct c as [ec cb m args]. unfold Closure_Run in Hrun. simpl in *.
      destruct (OnPolicyReadyToEvaluate_inv um _ _ _ _ _ _ _ Hrun) as
        (status' & r' & s1' & t1 & tail & Hev & -> & _ & _ & _ & Hcases).
      destruct (EvaluatePolicy_inv um _ _ _ _ _ _ _ _ _ Hev) as
        (_ & _ & _ & _ & _ & _ & _ & _ & Hdel1 & _).
      destruct Hcases as [[_ ->]|[[_ ->]|[_ ->]]].
      * by exists t1, status', r'.
      * rewrite deliveries_app, Hdel1 in Hdel. done.
      * eexists (t1 ++ [_; _]), status', r'.
        split; [by rewrite <- app_assoc|]. by rewrite deliveries_app, Hdel1.
    + destruct (IH _ _ _ Hrest) as (t' & status & r & -> & Hdel').
      exists (t ++ t'), status, r. split; [by rewrite app_assoc|].
      by rewrite deliveries_app, Hdel, Hdel'.
Qed.

(** *** The error slot over the life of a request *)

Lemma EvaluatePolicy_error_slots ec m result args s status r s' tr :
  EvaluatePolicy um ec m result args s = Done (status, r) s' tr ->
  ∀ who pc pr, (pc, pr) ∈ policy_calls who tr -> pc_error pc = "".
Proof.
  intros Hev who pc pr. destruct (heap s !! ec) as [e|] eqn:Hl;
    [|by rewrite (EvaluatePolicy_dangling um _ _ _ _ _ Hl) in Hev].
  rewrite (EvaluatePolicy_run um _ _ _ _ _ _ Hl) in Hev.
  set (p := invoke (policy_ um) m _ (state s) "" result args) in *.
  set (d := invoke (default_policy_ um) m _ _ _ _ _) in *.
  destruct (decide (pr_status p = kFailed)) as [Hp|Hp]; simplify_eq.
  - destruct (is_expired e), (pr_status d), who; simpl;
      rewrite ?list_elem_of_singleton, ?elem_of_nil; naive_solver.
  - destruct (is_expired e), who; simpl;
      rewrite ?list_elem_of_singleton, ?elem_of_nil; naive_solver.
Qed.

(** X5.  Over all the passes of an asynchronous request, every call of a
    policy method, on the primary policy or on the default policy, is given
    an empty error slot: no error text is carried from one policy to the
    other or from one pass to the next. *)
Theorem passes_error_slot n q s tr q' :
  passes um n q s tr q' ->
  ∀ who pc pr, (pc, pr) ∈ policy_calls who tr -> pc_error pc = "".
Proof.
  apply (passes_ind_trace um
           (λ tr, ∀ who pc pr, (pc, pr) ∈ policy_calls who tr -> pc_error pc = "")).
  - intros who pc pr Hin. by apply elem_of_nil in Hin.
  - intros tr1 tr2 H1 H2 who pc pr. rewrite policy_calls_app, elem_of_app.
    intros [Hin|Hin]; by eauto.
  - clear. intros [ec cb m args] s s1 tr Hrun who pc pr.
    unfold Closure_Run in Hrun. simpl in Hrun.
    destruct (OnPolicyReadyToEvaluate_inv um _ _ _ _ _ _ _ Hrun) as
      (status & r & s0 & t1 & tail & Hev & -> & _ & _ & _ & Hcases).
    rewrite policy_calls_app, elem_of_app. intros [Hin|Hin].
    + by eapply EvaluatePolicy_error_slots.
    + destruct Hcases as [[_ ->]|[[_ ->]|[_ ->]]]; by apply elem_of_nil in Hin.
Qed.

(** *** The log of a pass *)

(** The [INFO] lines of a trace. *)
Local Abbreviation info_lines tr := (filter (λ l, l.1 = INFO) (logged tr)).

Lemma EvaluatePolicy_info ec m result args s status r s' tr :
  EvaluatePolicy um ec m result args s = Done (status, r) s' tr ->
  info_lines tr = [(INFO, PolicyRequestName (policy_ um) m +:+ ": START");
                   (INFO, PolicyRequestName (policy_ um) m +:+ ": END")].
Proof.
  intros Hev. destruct (heap s !! ec) as [e|] eqn:Hl;
    [|by rewrite (EvaluatePolicy_dangling um _ _ _ _ _ Hl) in Hev].
  rewrite (EvaluatePolicy_run um _ _ _ _ _ _ Hl) in Hev.
  set (p := invoke (policy_ um) m _ (state s) "" result args) in *.
  set (d := invoke (default_policy_ um) m _ _ _ _ _) in *.
  destruct (decide (pr_status p = kFailed)) as [Hp|Hp]; simplify_eq.
  - by destruct (is_expired e), (pr_status d).
  - by destruct (is_expired e).
Qed.

(** X6.  A pass on a live context is bracketed in the log: the line
    [<name>: START] comes right before the call of the primary policy, the
    line [<name>: END] is the last event of the pass, no policy is called
    before the first, and these two are the only lines of severity INFO.
    The name is the one the primary policy gives the method, also when the
    default policy decides. *)
Theorem EvaluatePolicy_log_bracket ec m result args s :
  is_Some (heap s !! ec) ->
  ∃ status r s' tr pre pc pr mid,
    EvaluatePolicy um ec m result args s = Done (status, r) s' tr ∧
    tr = pre ++ [EvLog INFO (PolicyRequestName (policy_ um) m +:+ ": START");
                 EvPolicy Primary pc pr] ++ mid ++
                [EvLog INFO (PolicyRequestName (policy_ um) m +:+ ": END")] ∧
    policy_calls Primary pre = [] ∧ policy_calls Default pre = [] ∧
    policy_calls Primary mid = [] ∧
    info_lines tr = [(INFO, PolicyRequestName (policy_ um) m +:+ ": START");
                     (INFO, PolicyRequestName (policy_ um) m +:+ ": END")].
Proof.
  intros [e Hl]. rewrite (EvaluatePolicy_run um _ _ _ _ _ _ Hl).
  set (p := invoke (policy_ um) m _ (state s) "" result args).
  set (d := invoke (default_policy_ um) m _ _ _ _ _).
  destruct (decide (pr_status p = kFailed)) as [Hp|Hp].
  - destruct (is_expired e), (pr_status d) eqn:Hd; simpl.
    all: first
      [ by eexists _, _, _, _, [_; _; _], _, p, [_; _; _]
      | by eexists _, _, _, _, [_; _; _], _, p, [_; _]
      | by eexists _, _, _, _, [_], _, p, [_; _; _]
      | by eexists _, _, _, _, [_], _, p, [_; _] ].
  - destruct (is_expired e); simpl.
    + by eexists _, _, _, _, [_; _; _], _, p, [].
    + by eexists _, _, _, _, [_], _, p, [].
Qed.

(** X7.  The log tells how many passes a request took: over [n] passes the
    dispatcher writes exactly [2 * n] lines of severity INFO, a START and an
    END for each pass. *)
Theorem passes_info_lines n q s tr q' :
  passes um n q s tr q' -> length (info_lines tr) = 2 * n.
Proof.
  induction 1 as [|n c s s1 tr s2 tr' q Hrun _ IH]; [done|].
  rewrite logged_app, filter_app, length_app, IH.
  destruct c as [ec cb m args]. unfold Closure_Run in Hrun. simpl in Hrun.
  destruct (OnPolicyReadyToEvaluate_inv um _ _ _ _ _ _ _ Hrun) as
    (status & r & s0 & t1 & tail & Hev & -> & _ & _ & _ & Hcases).
  rewrite logged_app, filter_app, length_app,
    (EvaluatePolicy_info _ _ _ _ _ _ _ _ _ Hev).
  destruct Hcases as [[_ ->]|[[_ ->]|[_ ->]]]; simpl; lia.
Qed.

(** X8.  When the primary policy fails, its error text and the dump of the
    context as it left it are logged as one warning, right after its call
    and right before the call of the default policy.  When it does not
    fail, the pass logs nothing above severity INFO except, on an expired
    context, the time-out warning with the dump of the context as the pass
    found it. *)
Theorem EvaluatePolicy_failure_logged ec m result args s e :
  heap s !! ec = Some e ->
  ∃ status r s' tr pc pr,
    EvaluatePolicy um ec m result args s = Done (status, r) s' tr ∧
    policy_calls Primary tr = [(pc, pr)] ∧
    (pr_status pr = kFailed ->
       ∃ t0 dc dr t2,
         tr = t0 ++
              [EvPolicy Primary pc pr;
               EvLog WARNING ("Evaluating policy failed: " +:+ pr_error pr +:+
                              LF +:+ "Evaluation context: " +:+
                              DumpContext (pr_ec pr));
               EvPolicy Default dc dr] ++ t2) ∧
    (pr_status pr ≠ kFailed ->
       ∀ sev msg, (sev, msg) ∈ logged tr -> sev ≠ INFO ->
         is_expired e = true ∧ sev = WARNING ∧
         msg = "Request timed out, evaluation context: " +:+ DumpContext e).
Proof.
  intros Hl. rewrite (EvaluatePolicy_run um _ _ _ _ _ _ Hl).
  set (p := invoke (policy_ um) m _ (state s) "" result args).
  set (d := invoke (default_policy_ um) m _ _ _ _ _).
  destruct (decide (pr_status p = kFailed)) as [Hp|Hp].
  - destruct (is_expired e); simpl.
    + eexists _, _, _, _, _, p. split_and!; [reflexivity|by destruct (pr_status d)| |done].
      intros _. by eexists [_; _; _; _], _, d, _.
    + eexists _, _, _, _, _, p. split_and!; [reflexivity|by destruct (pr_status d)| |done].
      intros _. by eexists [_; _], _, d, _.
  - destruct (is_expired e); simpl.
    + eexists _, _, _, _, _, p. split_and!; [reflexivity|done..|].
      intros _ sev msg Hin Hsev.
      repeat (apply elem_of_cons in Hin as [Hin|Hin]; [by simplify_eq|]).
      by apply elem_of_nil in Hin.
    + eexists _, _, _, _, _, p. split_and!; [reflexivity|done..|].
      intros _ sev msg Hin Hsev.
      repeat (apply elem_of_cons in Hin as [Hin|Hin]; [by simplify_eq|]).
      by apply elem_of_nil in Hin.
Qed.

(** *** Requests side by side *)

(** X9.  What a synchronous request answers depends on the [State], the
    result slot and the arguments only, not on the contexts of other
    requests or on the main loop: in two stores with the same [State] the
    request writes the same log lines, gets the same answers from the
    policies, and ends the same way, with the same status and result and the
    same [State], or at the DCHECK. *)
Theorem PolicyRequest_isolated m result args s1 s2 :
  state s1 = state s2 ->
  logged (trace_of (PolicyRequest um m result args s1)) =
    logged (trace_of (PolicyRequest um m result args s2)) ∧
  (∀ who, (policy_calls who (trace_of (PolicyRequest um m result args s1))).*2 =
          (policy_calls who (trace_of (PolicyRequest um m result args s2))).*2) ∧
  match PolicyRequest um m result args s1, PolicyRequest um m result args s2 with
  | Done (st1, r1) s1' _, Done (st2, r2) s2' _ =>
      st1 = st2 ∧ r1 = r2 ∧ state s1' = state s2'
  | Stopped f1 s1' _, Stopped f2 s2' _ => f1 = f2 ∧ state s1' = state s2'
  | _, _ => False
  end.
Proof.
  intros Hst.
  destruct (PolicyRequest_run um m result args s1) as
    (st1 & r1 & s1' & t1 & Hev1 & ->).
  destruct (PolicyRequest_run um m result args s2) as
    (st2 & r2 & s2' & t2 & Hev2 & ->).
  rewrite (EvaluatePolicy_run um _ _ _ _ _ (EvaluationContext2 (clock_ um)
             (evaluation_timeout_ um))) in Hev1
    by (simpl; apply lookup_insert_eq).
  rewrite (EvaluatePolicy_run um _ _ _ _ _ (EvaluationContext2 (clock_ um)
             (evaluation_timeout_ um))) in Hev2
    by (simpl; apply lookup_insert_eq).
  simpl in Hev1, Hev2. rewrite <- Hst in Hev2.
  set (e0 := EvaluationContext2 _ _) in *.
  set (p := invoke (policy_ um) m _ (state s1) "" result (convert um args)) in *.
  set (d := invoke (default_policy_ um) m _ _ _ _ _) in *.
  destruct (decide (pr_status p = kFailed)) as [Hp|Hp]; simplify_eq.
  - destruct (DCHECK_IS_ON um), (is_expired e0), (pr_status d); simpl;
      split_and!; try done; by intros [].
  - destruct (DCHECK_IS_ON um), (is_expired e0), (pr_status p); simpl;
      split_and!; try done; by intros [].
Qed.

(** X10.  Two asynchronous requests made one after the other get a context
    each, at different addresses; the second request leaves the context of
    the first as it was constructed; and their closures stand in the main
    loop in the order of the requests, after what was there. *)
Theorem AsyncPolicyRequest_twice cb1 m1 args1 cb2 m2 args2 s :
  ∃ s1 tr1 s2 tr2 c1 c2,
    AsyncPolicyRequest um cb1 m1 args1 s = Done () s1 tr1 ∧
    AsyncPolicyRequest um cb2 m2 args2 s1 = Done () s2 tr2 ∧
    posted tr1 = [c1] ∧ posted tr2 = [c2] ∧
    cl_ec c1 ≠ cl_ec c2 ∧
    heap s !! cl_ec c1 = None ∧ heap s !! cl_ec c2 = None ∧
    heap s2 !! cl_ec c1 =
      Some (EvaluationContext3 (clock_ um) (evaluation_timeout_ um)
                               (expiration_timeout_ um)) ∧
    heap s2 !! cl_ec c2 =
      Some (EvaluationContext3 (clock_ um) (evaluation_timeout_ um)
                               (expiration_timeout_ um)) ∧
    main_loop s2 = main_loop s ++ [c1; c2].
Proof.
  eexists _, _, _, _, _, _.
  split; [apply AsyncPolicyRequest_run|].
  split; [apply AsyncPolicyRequest_run|].
  split; [reflexivity|]. split; [reflexivity|]. simpl.
  set (ec1 := fresh (dom (heap s))).
  set (h1 := <[ec1 := _]> (heap s)).
  set (ec2 := fresh (dom h1)).
  assert (Hne : ec1 ≠ ec2).
  { intros Heq. pose proof (is_fresh (dom h1)) as Hfresh. fold ec2 in Hfresh.
    apply Hfresh. rewrite <- Heq. subst h1. rewrite dom_insert_L. set_solver. }
  assert (H2 : h1 !! ec2 = None) by apply not_elem_of_dom, is_fresh.
  split_and!; try done.
  - apply fresh_not_live.
  - subst h1. by rewrite lookup_insert_ne in H2.
  - rewrite lookup_insert_ne by done. apply lookup_insert_eq.
  - apply lookup_insert_eq.
  - by rewrite <- app_assoc.
Qed.

(** *** What rescheduling is decided on *)


End Passes.

(** ** More of the templates on the small instance *)

(** Runs the passes of a request on the small instance one by one, each on
    the store the one before left. *)
Ltac run_passes :=
  repeat (refine (passes_fire _ _ _ _ ?[s1] _ ?s1 _ _ _ _);
          [vm_compute; reflexivity|]);
  apply passes_none.

(** X1 on the small instance: the primary policy fails, the default policy
    succeeds with result 7, after two policy calls on the state. *)
Lemma EvaluatePolicy_status_witness :
  ∃ status r s' tr,
    EvaluatePolicy (ops:=Toy.ops) (Toy.um false) 4 Toy.failing 0 8 Toy.s_idle
      = Done (status, r) s' tr ∧
    status = kSucceeded ∧ r = 7 ∧ state s' = 2.
Proof.
  destruct (EvaluatePolicy_status (ops:=Toy.ops) (Toy.um false) 4 Toy.failing
              0 8 Toy.s_idle) as
    (status & r & s' & tr & pc & pr & Hev & Hpc & _ & Hsucc & lc & lr & Hlast
     & Hr & Hst & _).
  { vm_compute. eauto. }
  exists status, r, s', tr. split; [exact Hev|].
  rewrite Hr, Hst. concrete Hev. concrete Hpc. concrete Hlast.
  split; [|by split]. apply Hsucc. right. split; [reflexivity|].
  by eexists _, _.
Defined.

(** X3 on the small instance: the step delivers what the pass returned,
    the default policy's answer, and ends there. *)
Lemma OnPolicyReadyToEvaluate_delivers_outcome_witness :
  ∃ s' tr,
    OnPolicyReadyToEvaluate (ops:=Toy.ops) (Toy.um false) 4 1 Toy.failing 8
      Toy.s_idle = Done () s' tr ∧
    last tr = Some (EvCallbackRun 1 kSucceeded 7).
Proof.
  eexists _, _.
  eassert (Hrun : OnPolicyReadyToEvaluate (ops:=Toy.ops) (Toy.um false) 4 1
                    Toy.failing 8 Toy.s_idle = Done () _ _)
    by (vm_compute; reflexivity).
  split; [exact Hrun|].
  edestruct (OnPolicyReadyToEvaluate_delivers_outcome (ops:=Toy.ops)
               (Toy.um false)) as (_ & Hlast & _);
    [exact Hrun|vm_compute; constructor|exact Hlast].
Defined.

(** X4 on the small instance: a request that is over after two passes; its
    trace ends with the run of its callback. *)
Lemma passes_delivery_last_witness :
  ∃ tr t status r,
    passes (ops:=Toy.ops) (Toy.um false) 2 (Pending Toy.patient) Toy.s_expired
           tr Resolved ∧
    tr = t ++ [EvCallbackRun 1 status r] ∧ deliveries t = [].
Proof.
  eassert (Hp : passes (ops:=Toy.ops) (Toy.um false) 2 (Pending Toy.patient)
                  Toy.s_expired _ Resolved) by run_passes.
  destruct (passes_delivery_last (ops:=Toy.ops) (Toy.um false) _ _ _ _ Hp) as
    (t & status & r & Htr & Hdel).
  eexists _, t, status, r. split; [exact Hp|]. by split.
Defined.

(** X5 on the small instance: in the second of two passes the primary policy
    finds an empty error slot, though it wrote an error text in the first. *)
Lemma passes_error_slot_witness :
  ∃ tr,
    passes (ops:=Toy.ops) (Toy.um false) 2 (Pending Toy.patient) Toy.s_expired
           tr Resolved ∧
    (pr_error <$> (policy_calls Primary tr).*2)
      = ["primary gave up"; "primary gave up"] ∧
    ∀ who pc pr, (pc, pr) ∈ policy_calls who tr -> pc_error pc = "".
Proof.
  eassert (Hp : passes (ops:=Toy.ops) (Toy.um false) 2 (Pending Toy.patient)
                  Toy.s_expired _ Resolved) by run_passes.
  eexists. split; [exact Hp|]. split; [reflexivity|].
  exact (passes_error_slot (ops:=Toy.ops) (Toy.um false) _ _ _ _ _ Hp).
Defined.

(** X6 on the small instance: the two INFO lines of a pass. *)
Lemma EvaluatePolicy_log_bracket_witness :
  ∃ status r s' tr,
    EvaluatePolicy (ops:=Toy.ops) (Toy.um false) 4 Toy.blocked 0 8 Toy.s_expired
      = Done (status, r) s' tr ∧
    filter (λ l, l.1 = INFO) (logged tr)
      = [(INFO, "UpdateCheckAllowed: START"); (INFO, "UpdateCheckAllowed: END")].
Proof.
  destruct (EvaluatePolicy_log_bracket (ops:=Toy.ops) (Toy.um false) 4
              Toy.blocked 0 8 Toy.s_expired) as
    (status & r & s' & tr & pre & pc & pr & mid & Hev & _ & _ & _ & _ & Hinfo).
  { vm_compute. eauto. }
  exists status, r, s', tr. split; [exact Hev|]. exact Hinfo.
Defined.

(** X7 on the small instance: two passes, four INFO lines. *)
Lemma passes_info_lines_witness :
  ∃ tr,
    passes (ops:=Toy.ops) (Toy.um false) 2 (Pending Toy.patient) Toy.s_expired
           tr Resolved ∧
    length (filter (λ l, l.1 = INFO) (logged tr)) = 4.
Proof.
  eassert (Hp : passes (ops:=Toy.ops) (Toy.um false) 2 (Pending Toy.patient)
                  Toy.s_expired _ Resolved) by run_passes.
  eexists. split; [exact Hp|].
  exact (passes_info_lines (ops:=Toy.ops) (Toy.um false) _ _ _ _ _ Hp).
Defined.

(** X8 on the small instance: the warning for the failed primary policy. *)
Lemma EvaluatePolicy_failure_logged_witness :
  ∃ status r s' tr,
    EvaluatePolicy (ops:=Toy.ops) (Toy.um false) 4 Toy.failing 0 8 Toy.s_idle
      = Done (status, r) s' tr ∧
    (WARNING, "Evaluating policy failed: primary gave up" +:+ LF +:+
              "Evaluation context: fresh") ∈ logged tr.
Proof.
  destruct (EvaluatePolicy_failure_logged (ops:=Toy.ops) (Toy.um false) 4
              Toy.failing 0 8 Toy.s_idle (Toy.mkCtx false false 3)) as
    (status & r & s' & tr & pc & pr & Hev & Hpc & Hfail & _).
  { vm_compute. reflexivity. }
  exists status, r, s', tr. split; [exact Hev|].
  concrete Hev. concrete Hpc.
  destruct (Hfail eq_refl) as (t0 & dc & dr & t2 & Htr).
  rewrite Htr, !logged_app, !elem_of_app. right. left. simpl. constructor.
Defined.

(** X9 on the small instance: the same synchronous request with no other
    context around and with two. *)
Lemma PolicyRequest_isolated_witness :
  state Toy.s_empty = state Toy.s_pair ∧
  logged (trace_of (PolicyRequest (ops:=Toy.ops) (Toy.um false) Toy.failing 0
                      true Toy.s_empty)) =
  logged (trace_of (PolicyRequest (ops:=Toy.ops) (Toy.um false) Toy.failing 0
                      true Toy.s_pair)).
Proof.
  split; [reflexivity|].
  by apply (PolicyRequest_isolated (ops:=Toy.ops) (Toy.um false) Toy.failing 0
              true Toy.s_empty Toy.s_pair).
Defined.

